(** * AliceVision: rigid similarity, fundamental-matrix solvers, sampling

    A shallow embedding of

    - [aliceVision/geometry/rigidTransformation3D.hpp]
      ([composeRTS], [decomposeRTS], [FindRTS], [RTSSolver],
      [RTSSquaredResidualError], [ACKernelAdaptor_PointsRegistrationSRT]),
    - [aliceVision/multiview/fundamentalKernelSolver.cpp]
      ([SevenPointSolver::Solve], [EightPointSolver::Solve]),
    - the sampling primitive exercised by
      [aliceVision/robustEstimation/randSampling_test.cpp].

    Numbers.  A C++ [double] is embedded as a real number of the Standard
    Library, and a comparison the code makes ([<] on doubles) is the
    decidable comparison of the reals ([Rlt_dec]).  The arithmetic of the
    metrics, of the adaptor and of the solvers is the exact one.  In
    [decomposeRTS], where what is computed decides which way the function
    returns, the three operations it leaves to Eigen and to <cmath> (the
    determinant, [pow] and the division) are parameters that stand for
    what binary64 computes, rounding included; nothing is assumed of
    them.  Out-parameters ([double &S], [Vec3 &t], [Mat3 &R],
    [Mat4 &RTS], [std::vector<...> *]) are embedded by explicit state
    passing: a function takes the prior content and returns the new one.
    A failed [assert] is an outcome of its own. *)

From Stdlib Require Import Reals Lra Lia ZArith.
From stdpp Require Import base list gmap.

(** ** What a call can end in *)

Inductive outcome (A : Type) : Type :=
| Returned (a : A)
| AssertionFailed
| OutOfBounds.
Arguments Returned {A} a.
Arguments AssertionFailed {A}.
Arguments OutOfBounds {A}.

#[global] Instance outcome_ret : MRet outcome := λ A a, Returned a.

#[global] Instance outcome_bind : MBind outcome := λ A B k m,
  match m with
  | Returned a => k a
  | AssertionFailed => AssertionFailed
  | OutOfBounds => OutOfBounds
  end.

(** [assert(c)] of <cassert>, with assertions enabled. *)
Definition assert (c : bool) : outcome unit :=
  if c then Returned tt else AssertionFailed.

(** ** The C++ standard library *)

Module std.

(** [std::numeric_limits<double>::epsilon()], that is 2^-52. *)
Definition numeric_limits_epsilon : R := (/ 2 ^ 52)%R.

(** The power function without rounding, which [pow(x, y)] of <cmath>
    approximates: a positive base gives [exp (y * ln x)]; a zero base
    gives 0 for a positive exponent and 1 for the exponent 0; elsewhere
    (a negative base, a zero base with a negative exponent) it answers
    0.  It is not what the code computes: the [pow] that [decomposeRTS]
    calls is a parameter of its embedding, and this function is one
    instance to run it on. *)
Definition pow (x y : R) : R :=
  if Rlt_dec 0 x then Rpower x y
  else if Req_dec_T x 0 then (if Req_dec_T y 0 then 1%R else 0%R)
  else 0%R.

End std.

(** ** Fixed-size vectors and matrices of [numeric.hpp] *)

Module numeric.
Local Open Scope R_scope.

Record Vec3 : Type := mkVec3 { v3_0 : R; v3_1 : R; v3_2 : R }.

Record Vec4 : Type := mkVec4 { v4_0 : R; v4_1 : R; v4_2 : R; v4_3 : R }.

Record Vec9 : Type := mkVec9
  { v9_0 : R; v9_1 : R; v9_2 : R;
    v9_3 : R; v9_4 : R; v9_5 : R;
    v9_6 : R; v9_7 : R; v9_8 : R }.

(** [Mat3]: the coefficient (i, j) is the field [m3_ij]. *)
Record Mat3 : Type := mkMat3
  { m3_00 : R; m3_01 : R; m3_02 : R;
    m3_10 : R; m3_11 : R; m3_12 : R;
    m3_20 : R; m3_21 : R; m3_22 : R }.

(** [Mat4]: the coefficient (i, j) is the field [m4_ij]. *)
Record Mat4 : Type := mkMat4
  { m4_00 : R; m4_01 : R; m4_02 : R; m4_03 : R;
    m4_10 : R; m4_11 : R; m4_12 : R; m4_13 : R;
    m4_20 : R; m4_21 : R; m4_22 : R; m4_23 : R;
    m4_30 : R; m4_31 : R; m4_32 : R; m4_33 : R }.

(** [Mat]: a matrix whose two dimensions are known at run time. *)
Record Mat : Type := mkMat
  { rows : nat; cols : nat; coeff : nat → nat → R }.

(** [m.col(j)] read as a [Vec3] (the first three rows). *)
Definition col3 (m : Mat) (j : nat) : Vec3 :=
  mkVec3 (coeff m 0 j) (coeff m 1 j) (coeff m 2 j).

Definition Mat_Zero (r c : nat) : Mat := mkMat r c (λ _ _, 0).

Definition Mat3_Identity : Mat3 := mkMat3 1 0 0  0 1 0  0 0 1.

Definition Mat4_Identity : Mat4 :=
  mkMat4 1 0 0 0  0 1 0 0  0 0 1 0  0 0 0 1.

Definition Vec3_Zero : Vec3 := mkVec3 0 0 0.

(** Coefficient-wise operations. *)
Definition vadd (a b : Vec3) : Vec3 :=
  mkVec3 (v3_0 a + v3_0 b) (v3_1 a + v3_1 b) (v3_2 a + v3_2 b).

Definition vsub (a b : Vec3) : Vec3 :=
  mkVec3 (v3_0 a - v3_0 b) (v3_1 a - v3_1 b) (v3_2 a - v3_2 b).

Definition squaredNorm (a : Vec3) : R :=
  v3_0 a * v3_0 a + v3_1 a * v3_1 a + v3_2 a * v3_2 a.

Definition norm (a : Vec3) : R := sqrt (squaredNorm a).

(** [s * M] *)
Definition mscale (s : R) (M : Mat3) : Mat3 :=
  mkMat3 (s * m3_00 M) (s * m3_01 M) (s * m3_02 M)
         (s * m3_10 M) (s * m3_11 M) (s * m3_12 M)
         (s * m3_20 M) (s * m3_21 M) (s * m3_22 M).

(** [M / s], every coefficient divided without rounding. *)
Definition mdiv (M : Mat3) (s : R) : Mat3 :=
  mkMat3 (m3_00 M / s) (m3_01 M / s) (m3_02 M / s)
         (m3_10 M / s) (m3_11 M / s) (m3_12 M / s)
         (m3_20 M / s) (m3_21 M / s) (m3_22 M / s).

Definition madd (A B : Mat3) : Mat3 :=
  mkMat3 (m3_00 A + m3_00 B) (m3_01 A + m3_01 B) (m3_02 A + m3_02 B)
         (m3_10 A + m3_10 B) (m3_11 A + m3_11 B) (m3_12 A + m3_12 B)
         (m3_20 A + m3_20 B) (m3_21 A + m3_21 B) (m3_22 A + m3_22 B).

Definition mmul (A B : Mat3) : Mat3 :=
  mkMat3
    (m3_00 A * m3_00 B + m3_01 A * m3_10 B + m3_02 A * m3_20 B)
    (m3_00 A * m3_01 B + m3_01 A * m3_11 B + m3_02 A * m3_21 B)
    (m3_00 A * m3_02 B + m3_01 A * m3_12 B + m3_02 A * m3_22 B)
    (m3_10 A * m3_00 B + m3_11 A * m3_10 B + m3_12 A * m3_20 B)
    (m3_10 A * m3_01 B + m3_11 A * m3_11 B + m3_12 A * m3_21 B)
    (m3_10 A * m3_02 B + m3_11 A * m3_12 B + m3_12 A * m3_22 B)
    (m3_20 A * m3_00 B + m3_21 A * m3_10 B + m3_22 A * m3_20 B)
    (m3_20 A * m3_01 B + m3_21 A * m3_11 B + m3_22 A * m3_21 B)
    (m3_20 A * m3_02 B + m3_21 A * m3_12 B + m3_22 A * m3_22 B).

Definition transpose (A : Mat3) : Mat3 :=
  mkMat3 (m3_00 A) (m3_10 A) (m3_20 A)
         (m3_01 A) (m3_11 A) (m3_21 A)
         (m3_02 A) (m3_12 A) (m3_22 A).

(** [d.asDiagonal()] *)
Definition asDiagonal (d : Vec3) : Mat3 :=
  mkMat3 (v3_0 d) 0 0  0 (v3_1 d) 0  0 0 (v3_2 d).

(** [M * v] *)
Definition mapply (M : Mat3) (v : Vec3) : Vec3 :=
  mkVec3 (m3_00 M * v3_0 v + m3_01 M * v3_1 v + m3_02 M * v3_2 v)
         (m3_10 M * v3_0 v + m3_11 M * v3_1 v + m3_12 M * v3_2 v)
         (m3_20 M * v3_0 v + m3_21 M * v3_1 v + m3_22 M * v3_2 v).

(** The determinant of a 3x3 matrix, without rounding: the expansion
    along the first row.  The statements about det(F1 + x·F2) and about
    proper rotations use it; what [R.determinant()] computes in
    [decomposeRTS] is a parameter of that embedding. *)
Definition determinant (M : Mat3) : R :=
  m3_00 M * (m3_11 M * m3_22 M - m3_12 M * m3_21 M)
  - m3_01 M * (m3_10 M * m3_22 M - m3_12 M * m3_20 M)
  + m3_02 M * (m3_10 M * m3_21 M - m3_11 M * m3_20 M).

(** [RTS.topLeftCorner<3, 3>()] read. *)
Definition topLeftCorner33 (M : Mat4) : Mat3 :=
  mkMat3 (m4_00 M) (m4_01 M) (m4_02 M)
         (m4_10 M) (m4_11 M) (m4_12 M)
         (m4_20 M) (m4_21 M) (m4_22 M).

(** [RTS.topRightCorner<3, 1>()] read. *)
Definition topRightCorner31 (M : Mat4) : Vec3 :=
  mkVec3 (m4_03 M) (m4_13 M) (m4_23 M).

(** [RTS.topLeftCorner(3, 3) = B]: the nine coefficients of the block
    are written, the seven others keep their content. *)
Definition set_topLeftCorner33 (M : Mat4) (B : Mat3) : Mat4 :=
  mkMat4 (m3_00 B) (m3_01 B) (m3_02 B) (m4_03 M)
         (m3_10 B) (m3_11 B) (m3_12 B) (m4_13 M)
         (m3_20 B) (m3_21 B) (m3_22 B) (m4_23 M)
         (m4_30 M) (m4_31 M) (m4_32 M) (m4_33 M).

(** [RTS.topRightCorner(3, 1) = v]: three coefficients are written. *)
Definition set_topRightCorner31 (M : Mat4) (v : Vec3) : Mat4 :=
  mkMat4 (m4_00 M) (m4_01 M) (m4_02 M) (v3_0 v)
         (m4_10 M) (m4_11 M) (m4_12 M) (v3_1 v)
         (m4_20 M) (m4_21 M) (m4_22 M) (v3_2 v)
         (m4_30 M) (m4_31 M) (m4_32 M) (m4_33 M).

(** The last row of a [Mat4]. *)
Definition bottomRow (M : Mat4) : Vec4 :=
  mkVec4 (m4_30 M) (m4_31 M) (m4_32 M) (m4_33 M).

(** [Square(x)]: the helper of [numeric.hpp] the adaptor calls. *)
Definition Square (x : R) : R := x * x.


End numeric.
Import numeric.

(** ** [rigidTransformation3D.hpp] *)

Module geometry.
Local Open Scope R_scope.

(** The three out-parameters [double &S], [Vec3 &t], [Mat3 &R] of
    [decomposeRTS] and [FindRTS]. *)
Record SRt : Type := mkSRt { out_S : R; out_t : Vec3; out_R : Mat3 }.

Definition set_S (o : SRt) (s : R) : SRt := mkSRt s (out_t o) (out_R o).
Definition set_t (o : SRt) (t : Vec3) : SRt := mkSRt (out_S o) t (out_R o).
Definition set_R (o : SRt) (Rm : Mat3) : SRt := mkSRt (out_S o) (out_t o) Rm.

(** [composeRTS(S, t, R, RTS)]: the new content of [RTS]. *)
Definition composeRTS (S : R) (t : Vec3) (Rm : Mat3) (RTS : Mat4) : Mat4 :=
  let RTS := set_topLeftCorner33 RTS (mscale S Rm) in
  let RTS := set_topRightCorner31 RTS t in
  RTS.

(** The operations [decomposeRTS] leaves to Eigen and to <cmath>, as
    binary64 computes them: [R.determinant()], [pow(x, y)] and the
    division of two doubles (in [1.0 / 3.0] and in [R /= S]).  They are
    parameters: each stands for the rounded result, whatever it is. *)
Class Binary64 : Type :=
  { fl_determinant : Mat3 → R;
    fl_pow : R → R → R;
    fl_div : R → R → R }.

Section decomposeRTS.
Context {fl : Binary64}.

(** [R /= S]: every coefficient divided by [S]. *)
Definition mdiv_assign (M : Mat3) (s : R) : Mat3 :=
  mkMat3 (fl_div (m3_00 M) s) (fl_div (m3_01 M) s) (fl_div (m3_02 M) s)
         (fl_div (m3_10 M) s) (fl_div (m3_11 M) s) (fl_div (m3_12 M) s)
         (fl_div (m3_20 M) s) (fl_div (m3_21 M) s) (fl_div (m3_22 M) s).

(** [decomposeRTS(RTS, S, t, R)]: the returned flag and the new content
    of the three out-parameters. *)
Definition decomposeRTS (RTS : Mat4) (o : SRt) : bool * SRt :=
  let o := set_R o (topLeftCorner33 RTS) in
  if Rlt_dec (fl_determinant (out_R o)) 0 then (false, o)
  else
    let o := set_S o (fl_pow (fl_determinant (out_R o)) (fl_div 1 3)) in
    if Rlt_dec (out_S o) std.numeric_limits_epsilon then (false, o)
    else
      let o := set_R o (mdiv_assign (out_R o) (out_S o)) in
      let o := set_t o (topRightCorner31 RTS) in
      (true, o).
End decomposeRTS.

(** [FindRTS(x1, x2, S, t, R)].  [Eigen::umeyama(x1, x2, true)] is the
    closed-form least-squares routine of the Eigen library; the
    embedding takes it as a parameter. *)
Section FindRTS.
Context {fl : Binary64}.
Variable umeyama : Mat → Mat → Mat4.

Definition FindRTS (x1 x2 : Mat) (o : SRt) : outcome (bool * SRt) :=
  if bool_decide (cols x1 < 3)%nat || bool_decide (cols x2 < 3)%nat
  then mret (false, o)
  else
    assert (bool_decide (3 = rows x1)%nat);;
    assert (bool_decide (3 ≤ cols x1)%nat);;
    assert (bool_decide (rows x1 = rows x2));;
    assert (bool_decide (cols x1 = cols x2));;
    let transform := umeyama x1 x2 in
    mret (decomposeRTS transform o).
End FindRTS.

(** The error-metric parameter [ErrorArg] of the kernel adaptor: a type
    with a static member [Error(model, pt1, pt2)]. *)
Class ErrorArg : Type :=
  { ErrorT_Error : Mat4 → Vec3 → Vec3 → R }.

Module RTSSolver.
Definition MINIMUM_SAMPLES : nat := 3.
Definition MAX_MODELS : nat := 1.

Definition Solve (umeyama : Mat → Mat → Mat4)
    (pts1 pts2 : Mat) (models : list Mat4) : list Mat4 :=
  models ++ [umeyama pts1 pts2].

(** The residual of the transformation. *)
Definition Error (RTS : Mat4) (pt1 pt2 : Vec3) : R :=
  let RS := topLeftCorner33 RTS in
  let t := topRightCorner31 RTS in
  norm (vsub pt2 (vadd (mapply RS pt1) t)).
End RTSSolver.

Module RTSSquaredResidualError.
(** The squared error. *)
Definition Error (RTS : Mat4) (pt1 pt2 : Vec3) : R :=
  let RS := topLeftCorner33 RTS in
  let t := topRightCorner31 RTS in
  squaredNorm (vsub pt2 (vadd (mapply RS pt1) t)).
End RTSSquaredResidualError.

#[export] Instance RTSSolver_ErrorArg : ErrorArg :=
  {| ErrorT_Error := RTSSolver.Error |}.

#[export] Instance RTSSquaredResidualError_ErrorArg : ErrorArg :=
  {| ErrorT_Error := RTSSquaredResidualError.Error |}.

(** [ACKernelAdaptor_PointsRegistrationSRT<SolverArg, ErrorArg>]: the
    two point sets it holds, and the members that score a model. *)
Module ACKernelAdaptor_PointsRegistrationSRT.

Record t : Type := mk { x1_ : Mat; x2_ : Mat }.

(** The constructor, with its three assertions. *)
Definition make (xA xB : Mat) : outcome t :=
  let k := mk xA xB in
  assert (bool_decide (3 = rows (x1_ k))%nat);;
  assert (bool_decide (rows (x1_ k) = rows (x2_ k)));;
  assert (bool_decide (cols (x1_ k) = cols (x2_ k)));;
  mret k.

Section Members.
Context {ErrorT : ErrorArg}.

Definition Error (k : t) (sample : nat) (model : Mat4) : R :=
  Square (ErrorT_Error model (col3 (x1_ k) sample) (col3 (x2_ k) sample)).

(** [vec_errors.resize(n)] keeps the first elements and fills up
    with 0.0; the loop then writes every index below [n]. *)
Definition Errors (k : t) (model : Mat4) (vec_errors : list R) : list R :=
  let vec_errors := resize (cols (x1_ k)) 0 vec_errors in
  foldl
    (λ vec_errors sample,
       <[sample :=
           Square (ErrorT_Error model
                     (col3 (x1_ k) sample) (col3 (x2_ k) sample))]>
         vec_errors)
    vec_errors (seq 0 (cols (x1_ k))).

Definition NumSamples (k : t) : nat := cols (x1_ k).

End Members.

End ACKernelAdaptor_PointsRegistrationSRT.

(** The wrapper [ACRansac_FindRTS(x1, x2, RTS, vec_inliers, refine)] that
    gives the similarity in matrix form.  The overload it calls, with the
    out-parameters [S], [t], [R], is only declared in this header and is a
    parameter here: it is given the content of the three locals, which
    the wrapper declares without initialising them, and the content of
    [vec_inliers], and answers its flag and the new contents. *)
Section ACRansac_FindRTS.
Variable ACRansac_FindRTS_SRt :
  Mat → Mat → SRt → list nat → bool → bool * SRt * list nat.
Variable uninitialized_SRt : SRt.

Definition ACRansac_FindRTS (x1 x2 : Mat) (RTS : Mat4)
    (vec_inliers : list nat) (refine : bool) : bool * Mat4 * list nat :=
  let '(good, o, vec_inliers) :=
    ACRansac_FindRTS_SRt x1 x2 uninitialized_SRt vec_inliers refine in
  let RTS :=
    if good then composeRTS (out_S o) (out_t o) (out_R o) RTS else RTS in
  (good, RTS, vec_inliers).
End ACRansac_FindRTS.

(** What the specification calls the squared residual of a model on one
    correspondence: ‖x2 − (S·R·x1 + t)‖², with S·R the top-left block
    of the model and t its top-right column. *)
Definition squared_residual (M : Mat4) (x1 x2 : Vec3) : R :=
  let d := vsub x2 (vadd (mapply (topLeftCorner33 M) x1) (topRightCorner31 M)) in
  v3_0 d ^ 2 + v3_1 d ^ 2 + v3_2 d ^ 2.

End geometry.

(** ** [fundamentalKernelSolver.cpp] *)

Module fundamental.
Module kernel.
Local Open Scope R_scope.

(** [Map<RMat3>(f.data())]: the nine coefficients read row by row. *)
Definition Map_RMat3 (f : Vec9) : Mat3 :=
mkMat3 (v9_0 f) (v9_1 f) (v9_2 f)
       (v9_3 f) (v9_4 f) (v9_5 f)
       (v9_6 f) (v9_7 f) (v9_8 f).

(** [double roots[3]] read at an index: reading past the end has no
  defined result. *)
Definition roots_at (roots : Vec3) (kk : nat) : option R :=
match kk with
| 0%nat => Some (v3_0 roots)
| 1%nat => Some (v3_1 roots)
| 2%nat => Some (v3_2 roots)
| _ => None
end.

(** What [Eigen::JacobiSVD<Mat3>] gives back. *)
Record JacobiSVD_result : Type := mkUSV
{ matrixU : Mat3; singularValues : Vec3; matrixV : Mat3 }.

(** The coefficients [P[0..3]] of the seven-point solver, in ascending
  powers of alpha. *)
Definition cubic_coeffs (F1 F2 : Mat3) : Vec4 :=
let a := m3_00 F1 in let j := m3_00 F2 in
let b := m3_01 F1 in let k := m3_01 F2 in
let c := m3_02 F1 in let l := m3_02 F2 in
let d := m3_10 F1 in let m := m3_10 F2 in
let e := m3_11 F1 in let n := m3_11 F2 in
let f := m3_12 F1 in let o := m3_12 F2 in
let g := m3_20 F1 in let p := m3_20 F2 in
let h := m3_21 F1 in let q := m3_21 F2 in
let i := m3_22 F1 in let r := m3_22 F2 in
mkVec4
  (a*e*i + b*f*g + c*d*h - a*f*h - b*d*i - c*e*g)
  (a*e*r + a*i*n + b*f*p + b*g*o + c*d*q + c*h*m + d*h*l + e*i*j + f*g*k -
   a*f*q - a*h*o - b*d*r - b*i*m - c*e*p - c*g*n - d*i*k - e*g*l - f*h*j)
  (a*n*r + b*o*p + c*m*q + d*l*q + e*j*r + f*k*p + g*k*o + h*l*m + i*j*n -
   a*o*q - b*m*r - c*n*p - d*k*r - e*l*p - f*j*q - g*l*n - h*j*o - i*k*m)
  (j*n*r + k*o*p + l*m*q - j*o*q - k*m*r - l*n*p).

(** The content of [double roots[3]], first to last. *)
Definition roots_list (roots : Vec3) : list R :=
[v3_0 roots; v3_1 roots; v3_2 roots].

(** The cubic with coefficients [P], in ascending powers. *)
Definition cubic (P : Vec4) (x : R) : R :=
v4_0 P + v4_1 P * x + v4_2 P * x ^ 2 + v4_3 P * x ^ 3.

(** The routines of the repository the two solvers call and that are
  declared elsewhere ([fundamentalKernelSolver.hpp], [numeric.hpp],
  [polynomial.hpp]) or belong to Eigen, and the content of the
  objects the code declares without initialising them. *)
Section Solvers.
(** [EncodeEpipolarEquation(x1, x2, &A, weights)]: the new content of
  [A]; [weights] may be the null pointer. *)
Variable EncodeEpipolarEquation : Mat → Mat → option (list R) → Mat → Mat.
(** [Nullspace(&A, &f)]: the content of [f] afterwards. *)
Variable Nullspace : Mat → Vec9.
(** [Nullspace2(&A, &f1, &f2)]: the content of [f1] and [f2]. *)
Variable Nullspace2 : Mat → Vec9 * Vec9.
(** [SolveCubicPolynomial(P, roots)]: the returned count and the new
  content of [roots]. *)
Variable SolveCubicPolynomial : Vec4 → Vec3 → Z * Vec3.
Variable JacobiSVD : Mat3 → JacobiSVD_result.
(** The coefficients of [Mat A(n, 9)] and of [double roots[3]] before
  anything is written to them. *)
Variable uninitialized_A : nat → nat → R.
Variable uninitialized_roots : Vec3.

(** The two null-space matrices [F1] and [F2] of the seven-point
  solver. *)
Definition seven_point_basis (x1 x2 : Mat) : Mat3 * Mat3 :=
let '(f1, f2) :=
  if bool_decide (cols x1 = 7%nat) then
    let A := Mat_Zero 9 9 in
    let A := EncodeEpipolarEquation x1 x2 None A in
    Nullspace2 A
  else
    let A := mkMat (cols x1) 9 uninitialized_A in
    let A := EncodeEpipolarEquation x1 x2 None A in
    Nullspace2 A
in (Map_RMat3 f1, Map_RMat3 f2).

(** [for (int kk = 0; kk < num_roots; ++kk) F->push_back(F1 + roots[kk] * F2);]
  over the indices the loop visits. *)
Fixpoint push_candidates (F1 F2 : Mat3) (roots : Vec3)
  (kks : list nat) (F : list Mat3) : outcome (list Mat3) :=
match kks with
| [] => mret F
| kk :: kks =>
    match roots_at roots kk with
    | Some root => push_candidates F1 F2 roots kks (F ++ [madd F1 (mscale root F2)])
    | None => OutOfBounds
    end
end.

(** [SevenPointSolver::Solve(x1, x2, F)]: the new content of [*F]. *)
Definition SevenPointSolver_Solve (x1 x2 : Mat) (F : list Mat3)
  : outcome (list Mat3) :=
assert (bool_decide (2 = rows x1)%nat);;
assert (bool_decide (7 ≤ cols x1)%nat);;
assert (bool_decide (rows x1 = rows x2));;
assert (bool_decide (cols x1 = cols x2));;
let '(F1, F2) := seven_point_basis x1 x2 in
let P := cubic_coeffs F1 F2 in
let '(num_roots, roots) := SolveCubicPolynomial P uninitialized_roots in
push_candidates F1 F2 roots (seq 0 (Z.to_nat num_roots)) F.

(** The matrix [F] of the eight-point solver before the rank is
  looked at. *)
Definition eight_point_nullspace (x1 x2 : Mat) (weights : option (list R))
  : Mat3 :=
let f :=
  if bool_decide (cols x1 = 8%nat) then
    let A := Mat_Zero 9 9 in
    let A := EncodeEpipolarEquation x1 x2 weights A in
    Nullspace A
  else
    let A := mkMat (cols x1) 9 uninitialized_A in
    let A := EncodeEpipolarEquation x1 x2 weights A in
    Nullspace A
in Map_RMat3 f.

(** The block guarded by [x1.cols() > 8]: the matrix is rebuilt from
  its singular value decomposition with [d[2] = 0.0]. *)
Definition force_rank2 (F : Mat3) : Mat3 :=
let USV := JacobiSVD F in
let d := singularValues USV in
let d := mkVec3 (v3_0 d) (v3_1 d) 0 in
mmul (mmul (matrixU USV) (asDiagonal d)) (transpose (matrixV USV)).

(** [EightPointSolver::Solve(x1, x2, Fs, weights)]: the new content
  of [*Fs]. *)
Definition EightPointSolver_Solve (x1 x2 : Mat) (Fs : list Mat3)
  (weights : option (list R)) : outcome (list Mat3) :=
assert (bool_decide (2 = rows x1)%nat);;
assert (bool_decide (8 ≤ cols x1)%nat);;
assert (bool_decide (rows x1 = rows x2));;
assert (bool_decide (cols x1 = cols x2));;
let F := eight_point_nullspace x1 x2 weights in
let F := if bool_decide (8 < cols x1)%nat then force_rank2 F else F in
mret (Fs ++ [F]).
End Solvers.
End kernel.
End fundamental.

(** ** The sampling primitive of [randSampling.hpp] *)

Module robustEstimation.

Section Sampling.
(** The random-number source: a state and one raw draw from it. *)
Context {Gen : Type}.
Variable next : Gen → nat * Gen.

(** A draw in the closed range [a, b]. *)
Definition randomUniformInt (a b : nat) (g : Gen) : nat * Gen :=
  let '(raw, g) := next g in
  (a + raw mod (b - a + 1), g).

(** [std::swap(vals[i], vals[j])] *)
Definition swap (i j : nat) (vals : list nat) : list nat :=
  match vals !! i, vals !! j with
  | Some x, Some y => <[j := x]> (<[i := y]> vals)
  | _, _ => vals
  end.

(** The selection loop from position [i] on: the candidate for
    position [i] is drawn among the positions not yet fixed, and is
    swapped in, which takes it out of the remaining range. *)
Fixpoint select (steps i : nat) (vals : list nat) (g : Gen)
    : list nat * Gen :=
  match steps with
  | O => (vals, g)
  | S steps =>
      let '(j, g) := randomUniformInt i (length vals - 1) g in
      select steps (S i) (swap i j vals) g
  end.

(** Modelled from the spec: [UniformSample] is declared in
    [randSampling.hpp], which is not among the sources; only its test
    is.  The spec (4.1) gives a partial Fisher-Yates selection over
    the range [lo, hi) that draws a candidate from the shrinking
    remaining range and swaps it out of it, returns exactly [k]
    values, and fails fast when [k > hi - lo]. *)
Definition UniformSample (lowerBound upperBound numSamples : nat)
    (g : Gen) : outcome (list nat * Gen) :=
  assert (bool_decide (numSamples ≤ upperBound - lowerBound));;
  let vals := seq lowerBound (upperBound - lowerBound) in
  let '(vals, g) := select numSamples 0 vals g in
  mret (take numSamples vals, g).

(** The form [UniformSample(numSamples, upperBound, samples)] over
    [0, upperBound). *)
Definition UniformSample0 (numSamples upperBound : nat) (g : Gen)
    : outcome (list nat * Gen) :=
  UniformSample 0 upperBound numSamples g.
End Sampling.

(** A generator to run the sampling on: the linear congruential step
    of the C library's [rand], the draw being bits 16 to 30 of the new
    state. *)
Definition lcg_next (s : N) : nat * N :=
  let s := ((s * 1103515245 + 12345) mod 2147483648)%N in
  (N.to_nat ((s / 65536) mod 32768)%N, s).

End robustEstimation.

(** ** [randSampling_test.cpp] *)

Module randSampling_test.

(** [BOOST_CHECK(c)]: a check that fails is counted and the test goes
    on. *)
Definition BOOST_CHECK (c : bool) (failed : nat) : nat :=
  if c then failed else S failed.

(** The range-for over [samples] of the two tests: every sample is
    inserted into [myset] and checked against the two bounds. *)
Definition check_each (lower upper : nat) (samples : list nat)
    (st : gset nat * nat) : gset nat * nat :=
  foldl
    (λ st s,
       let myset := {[ s ]} ∪ st.1 in
       let failed := BOOST_CHECK (bool_decide (lower ≤ s)) st.2 in
       let failed := BOOST_CHECK (bool_decide (s < upper)) failed in
       (myset, failed))
    st samples.

(** [for (x = x0; cond(x); x *= 2) body(x)] on a state, with a bound on
    the number of rounds: [None] when the bound is reached before the
    condition fails.  The values stay far below the range of
    [std::size_t]. *)
Fixpoint for_doubling {St : Type} (fuel : nat) (x : nat) (cond : nat → bool)
    (body : nat → St → option (outcome St)) (st : St)
    : option (outcome St) :=
  match fuel with
  | O => None
  | S fuel =>
      if cond x then
        match body x st with
        | Some (Returned st) => for_doubling fuel (x * 2) cond body st
        | other => other
        end
      else Some (Returned st)
  end.

Section Tests.
(** The state of the random-number source and the two functions under
    test, which [randSampling.hpp] declares:
    [UniformSample(numSamples, upperBound, samples)] and
    [UniformSample(begin, upperBound, numSamples, samples)], each
    answering the samples and the new state of the source. *)
Context {Gen : Type}.
Variable UniformSample_upTo : nat → nat → Gen → outcome (list nat * Gen).
Variable UniformSample_fromTo : nat → nat → nat → Gen → outcome (list nat * Gen).

(** The body of the inner loop of [UniformSampleTest_NoRepetions], on
    the state of the source and the number of failed checks. *)
Definition NoRepetions_body (upperBound numSamples : nat) (st : Gen * nat)
    : option (outcome (Gen * nat)) :=
  Some (
    '(samples, g) ← UniformSample_upTo numSamples upperBound st.1;
    let checked := check_each 0 upperBound samples (∅, st.2) in
    let failed :=
      BOOST_CHECK (bool_decide (numSamples = size checked.1)) checked.2 in
    mret (g, failed)).

Definition UniformSampleTest_NoRepetions (fuel : nat) (g : Gen)
    : option (outcome (Gen * nat)) :=
  for_doubling fuel 1 (λ upperBound, bool_decide (upperBound < 513))
    (λ upperBound st,
       for_doubling fuel 1 (λ numSamples, bool_decide (numSamples ≤ upperBound))
         (NoRepetions_body upperBound) st)
    (g, 0).

(** The body of the inner loop of
    [UniformSampleTest_NoRepetionsBeginEnd]. *)
Definition NoRepetionsBeginEnd_body (upperBound numSamples : nat)
    (st : Gen * nat) : option (outcome (Gen * nat)) :=
  Some (
    assert (bool_decide (numSamples ≤ upperBound));;
    let begin := upperBound - numSamples in
    '(samples, g) ← UniformSample_fromTo begin upperBound numSamples st.1;
    let checked := check_each begin upperBound samples (∅, st.2) in
    let failed :=
      BOOST_CHECK (bool_decide (numSamples = size checked.1)) checked.2 in
    mret (g, failed)).

Definition UniformSampleTest_NoRepetionsBeginEnd (fuel : nat) (g : Gen)
    : option (outcome (Gen * nat)) :=
  for_doubling fuel 1 (λ upperBound, bool_decide (upperBound < 513))
    (λ upperBound st,
       for_doubling fuel 1 (λ numSamples, bool_decide (numSamples ≤ upperBound))
         (NoRepetionsBeginEnd_body upperBound) st)
    (g, 0).
End Tests.

(** What the tests ask of a sampler over [lo, hi): for a count that is at
    most [hi - lo] it returns that many values of the range, no two
    equal. *)
Definition sampler_contract {Gen : Type}
    (sampler : nat → nat → nat → Gen → outcome (list nat * Gen)) : Prop :=
  ∀ lo hi k g, k ≤ hi - lo →
    ∃ samples g',
      sampler lo hi k g = Returned (samples, g')
      ∧ length samples = k
      ∧ (∀ e, e ∈ samples → lo ≤ e < hi)
      ∧ NoDup samples.

(** The same for the form over [0, hi). *)
Definition sampler_contract_upTo {Gen : Type}
    (sampler : nat → nat → Gen → outcome (list nat * Gen)) : Prop :=
  ∀ hi k g, k ≤ hi →
    ∃ samples g',
      sampler k hi g = Returned (samples, g')
      ∧ length samples = k
      ∧ (∀ e, e ∈ samples → e < hi)
      ∧ NoDup samples.

End randSampling_test.

(** ** Vocabulary of the statements and inputs to run the code on *)

Module inputs.
Local Open Scope R_scope.

(** The three operations of [decomposeRTS] taken without rounding: an
    instance to run the function on.  On the inputs it is used with (the
    identity, the zero matrix, a reflection, powers of two on the
    diagonal) binary64 computes the same determinants and takes the same
    branches. *)
Definition exact_arithmetic : geometry.Binary64 :=
  {| geometry.fl_determinant := determinant;
     geometry.fl_pow := std.pow;
     geometry.fl_div := Rdiv |}.


Definition Mat4_Zero : Mat4 :=
  mkMat4 0 0 0 0  0 0 0 0  0 0 0 0  0 0 0 0.

(** A reflection: the identity with its last axis flipped. *)
Definition Mat4_mirror : Mat4 :=
  mkMat4 1 0 0 0  0 1 0 0  0 0 (-1) 0  0 0 0 1.

(** Out-parameters with a content of their own before the call. *)
Definition prior_outputs : geometry.SRt :=
  geometry.mkSRt 7 (mkVec3 1 2 3) (mkMat3 2 0 0  0 2 0  0 0 2).

(** A 3xN point set whose column j is (j, 0, 0). *)
Definition points_on_axis (n : nat) : Mat :=
  mkMat 3 n (λ i j, match i with O => INR j | _ => 0 end).

(** A 3xN point set whose column j is (j + 2, 0, 0). *)
Definition points_on_axis_shifted (n : nat) : Mat :=
  mkMat 3 n (λ i j, match i with O => INR j + 2 | _ => 0 end).

(** The kernel adaptor over two correspondences: (0,0,0) with (2,0,0)
    and (1,0,0) with (3,0,0). *)
Definition adaptor_two_points : geometry.ACKernelAdaptor_PointsRegistrationSRT.t :=
  geometry.ACKernelAdaptor_PointsRegistrationSRT.mk
    (points_on_axis 2) (points_on_axis_shifted 2).

(** Two image point sets of n correspondences, column j being (j, j²)
    in the first and (j + 1, j) in the second. *)
Definition image_points (n : nat) : Mat :=
  mkMat 2 n (λ i j, match i with O => INR j | _ => INR j * INR j end).

Definition image_points' (n : nat) : Mat :=
  mkMat 2 n (λ i j, match i with O => INR j + 1 | _ => INR j end).

(** Instances of the routines the solvers take as parameters, to run
    the solvers on: an encoder that leaves [A] as it is, null-space
    routines that answer fixed vectors, a root-finder that reports the
    single root 0 and one that reports none, and a decomposition that
    answers U = V = identity with the diagonal of the input. *)
Definition sample_Encode (x1 x2 : Mat) (w : option (list R)) (A : Mat) : Mat := A.

Definition sample_Nullspace (A : Mat) : Vec9 :=
  mkVec9 1 0 0  0 2 0  0 0 3.

Definition sample_Nullspace2 (A : Mat) : Vec9 * Vec9 :=
  (mkVec9 0 0 0  0 1 0  0 0 1, mkVec9 1 0 0  0 0 0  0 0 0).

Definition sample_one_root (P : Vec4) (roots : Vec3) : Z * Vec3 :=
  (1%Z, mkVec3 0 (v3_1 roots) (v3_2 roots)).

Definition sample_no_root (P : Vec4) (roots : Vec3) : Z * Vec3 :=
  (0%Z, roots).

Definition sample_SVD (F : Mat3) : fundamental.kernel.JacobiSVD_result :=
  fundamental.kernel.mkUSV Mat3_Identity
    (mkVec3 (m3_00 F) (m3_11 F) (m3_22 F)) Mat3_Identity.

End inputs.
Import inputs.

(** ** More vocabulary *)

Module statements.
Local Open Scope R_scope.

(** The matrix [S*R | t; 0 0 0 1] the documentation of [composeRTS]
    names. *)
Definition similarity_matrix (S : R) (Rm : Mat3) (t : Vec3) : Mat4 :=
  mkMat4 (S * m3_00 Rm) (S * m3_01 Rm) (S * m3_02 Rm) (v3_0 t)
         (S * m3_10 Rm) (S * m3_11 Rm) (S * m3_12 Rm) (v3_1 t)
         (S * m3_20 Rm) (S * m3_21 Rm) (S * m3_22 Rm) (v3_2 t)
         0 0 0 1.


(** The reflection that flips the last axis. *)
Definition Mat3_mirror : Mat3 := mkMat3 1 0 0  0 1 0  0 0 (-1).

(** A routine standing for [Eigen::umeyama] that answers the similarity
    of scale 2, identity rotation and translation (1, 2, 3). *)
Definition sample_umeyama (x1 x2 : Mat) : Mat4 :=
  similarity_matrix 2 Mat3_Identity (mkVec3 1 2 3).

(** A routine standing for [Eigen::umeyama] that answers a reflection. *)
Definition sample_umeyama_mirror (x1 x2 : Mat) : Mat4 := Mat4_mirror.

(** A routine standing for the seven-argument [ACRansac_FindRTS]: it
    reports success with scale 2, identity rotation, translation
    (1, 2, 3) and the inliers 0 and 1. *)
Definition sample_ACRansac (x1 x2 : Mat) (o : geometry.SRt)
    (vec_inliers : list nat) (refine : bool)
    : bool * geometry.SRt * list nat :=
  (true, geometry.mkSRt 2 (mkVec3 1 2 3) Mat3_Identity, [0; 1]%nat).

(** And one that reports failure and leaves everything as it was. *)
Definition sample_ACRansac_failing (x1 x2 : Mat) (o : geometry.SRt)
    (vec_inliers : list nat) (refine : bool)
    : bool * geometry.SRt * list nat :=
  (false, o, vec_inliers).

(** A null-space routine that answers a matrix of rank 2, and a
    root-finder that reports three roots of which the solver is to read
    all. *)
Definition sample_Nullspace_rank2 (A : Mat) : Vec9 :=
  mkVec9 1 0 0  0 2 0  0 0 0.

Definition sample_too_many_roots (P : Vec4) (roots : Vec3) : Z * Vec3 :=
  (4%Z, mkVec3 0 0 0).

End statements.
Import statements.

(** * Properties *)

Import geometry.

(** ** Arithmetic of the embedding *)

Section Arithmetic.
Local Open Scope R_scope.

Lemma epsilon_pos : 0 < std.numeric_limits_epsilon.
Proof.
  unfold std.numeric_limits_epsilon.
  apply Rinv_0_lt_compat, pow_lt. lra.
Qed.

Lemma pow_pos_base (x y : R) : 0 < x → std.pow x y = Rpower x y.
Proof. intros Hx. unfold std.pow. destruct (Rlt_dec 0 x); [reflexivity | lra]. Qed.

Lemma pow_zero_base (y : R) : y ≠ 0 → std.pow 0 y = 0.
Proof.
  intros Hy. unfold std.pow.
  destruct (Rlt_dec 0 0); [lra |].
  destruct (Req_dec_T 0 0); [| lra].
  destruct (Req_dec_T y 0); [contradiction | reflexivity].
Qed.

(** The cube root that [pow(x, 1.0 / 3.0)] computes undoes a cube. *)
Lemma pow_third_cube (s : R) : 0 < s → std.pow (s * s * s) (1 / 3) = s.
Proof.
  intros Hs.
  assert (Hss : 0 < s * s) by (apply Rmult_lt_0_compat; assumption).
  assert (Hsss : 0 < s * s * s) by (apply Rmult_lt_0_compat; assumption).
  rewrite pow_pos_base by assumption.
  unfold Rpower.
  rewrite !ln_mult by assumption.
  replace (1 / 3 * (ln s + ln s + ln s)) with (ln s) by field.
  apply exp_ln; assumption.
Qed.

Lemma determinant_mscale (s : R) (M : Mat3) :
  determinant (mscale s M) = s * s * s * determinant M.
Proof. unfold determinant, mscale; simpl. ring. Qed.

Lemma mdiv_mscale (s : R) (M : Mat3) : s ≠ 0 → mdiv (mscale s M) s = M.
Proof.
  intros Hs. destruct M; unfold mdiv, mscale; simpl.
  f_equal; field; assumption.
Qed.

Lemma determinant_Identity : determinant Mat3_Identity = 1.
Proof. unfold determinant, Mat3_Identity; simpl. ring. Qed.


Lemma squaredNorm_nonneg (v : Vec3) : 0 <= squaredNorm v.
Proof. unfold squaredNorm. nra. Qed.

Lemma Square_norm (v : Vec3) : Square (norm v) = squaredNorm v.
Proof. unfold Square, norm. apply sqrt_sqrt, squaredNorm_nonneg. Qed.

End Arithmetic.

(** ** [composeRTS] and [decomposeRTS] *)

Section Similarity.
Local Open Scope R_scope.

Lemma topLeftCorner33_composeRTS S t Rm RTS :
  topLeftCorner33 (composeRTS S t Rm RTS) = mscale S Rm.
Proof. reflexivity. Qed.

Lemma topRightCorner31_composeRTS S t Rm RTS :
  topRightCorner31 (composeRTS S t Rm RTS) = t.
Proof. destruct t; reflexivity. Qed.

Lemma bottomRow_composeRTS S t Rm RTS :
  bottomRow (composeRTS S t Rm RTS) = bottomRow RTS.
Proof. reflexivity. Qed.



Lemma epsilon_le_1 : std.numeric_limits_epsilon <= 1.
Proof.
  unfold std.numeric_limits_epsilon.
  rewrite <- Rinv_1. apply Rinv_le_contravar; [lra |].
  apply pow_R1_Rle. lra.
Qed.

End Similarity.

(** The three ways out of [decomposeRTS], by the guard that fires, for
    whatever the determinant, [pow] and the division compute. *)
Section DecomposeExits.
Local Open Scope R_scope.
Context {fl : Binary64}.

Lemma decomposeRTS_negative RTS o :
  fl_determinant (topLeftCorner33 RTS) < 0 →
  decomposeRTS RTS o = (false, set_R o (topLeftCorner33 RTS)).
Proof.
  intros Hd. unfold decomposeRTS; simpl.
  destruct (Rlt_dec _ 0); [reflexivity | contradiction].
Qed.

Lemma decomposeRTS_degenerate RTS o :
  ¬ fl_determinant (topLeftCorner33 RTS) < 0 →
  fl_pow (fl_determinant (topLeftCorner33 RTS)) (fl_div 1 3)
    < std.numeric_limits_epsilon →
  decomposeRTS RTS o =
    (false, set_S (set_R o (topLeftCorner33 RTS))
              (fl_pow (fl_determinant (topLeftCorner33 RTS)) (fl_div 1 3))).
Proof.
  intros Hd Hs. unfold decomposeRTS; simpl.
  destruct (Rlt_dec _ 0); [contradiction |].
  destruct (Rlt_dec _ std.numeric_limits_epsilon); [reflexivity | contradiction].
Qed.

Lemma decomposeRTS_similarity RTS o :
  ¬ fl_determinant (topLeftCorner33 RTS) < 0 →
  ¬ fl_pow (fl_determinant (topLeftCorner33 RTS)) (fl_div 1 3)
      < std.numeric_limits_epsilon →
  decomposeRTS RTS o =
    (true, mkSRt (fl_pow (fl_determinant (topLeftCorner33 RTS)) (fl_div 1 3))
                 (topRightCorner31 RTS)
                 (mdiv_assign (topLeftCorner33 RTS)
                    (fl_pow (fl_determinant (topLeftCorner33 RTS)) (fl_div 1 3)))).
Proof.
  intros Hd Hs. unfold decomposeRTS; simpl.
  destruct (Rlt_dec _ 0); [contradiction |].
  destruct (Rlt_dec _ std.numeric_limits_epsilon); [contradiction | reflexivity].
Qed.

End DecomposeExits.

(** [decomposeRTS] run with the operations taken without rounding. *)
Lemma exact_third : (@fl_div exact_arithmetic 1 3 = 1 / 3)%R.
Proof. reflexivity. Qed.

Lemma exact_fl_determinant (M : Mat3) :
  @fl_determinant exact_arithmetic M = determinant M.
Proof. reflexivity. Qed.

Lemma exact_fl_pow (x y : R) : @fl_pow exact_arithmetic x y = std.pow x y.
Proof. reflexivity. Qed.

Ltac exact_ops :=
  rewrite ?exact_fl_pow, ?exact_fl_determinant, ?exact_third in *.

Section ExactRuns.
Local Open Scope R_scope.


Lemma exact_determinant_Zero : determinant (topLeftCorner33 Mat4_Zero) = 0.
Proof. unfold determinant; simpl; ring. Qed.

Lemma exact_determinant_mirror : determinant (topLeftCorner33 Mat4_mirror) = -1.
Proof. unfold determinant; simpl; ring. Qed.

Lemma exact_decomposeRTS_Zero (o : SRt) :
  @decomposeRTS exact_arithmetic Mat4_Zero o
  = (false, set_S (set_R o (topLeftCorner33 Mat4_Zero)) 0).
Proof.
  assert (Hp : std.pow (determinant (topLeftCorner33 Mat4_Zero)) (1 / 3) = 0)
    by (rewrite exact_determinant_Zero; apply pow_zero_base; lra).
  rewrite decomposeRTS_degenerate; exact_ops; rewrite ?Hp.
  - reflexivity.
  - rewrite exact_determinant_Zero. lra.
  - apply epsilon_pos.
Qed.

Lemma exact_decomposeRTS_mirror (o : SRt) :
  @decomposeRTS exact_arithmetic Mat4_mirror o
  = (false, set_R o (topLeftCorner33 Mat4_mirror)).
Proof.
  apply decomposeRTS_negative. exact_ops.
  rewrite exact_determinant_mirror. lra.
Qed.

(** Composed with a positive scale and a matrix of determinant 1. *)
Lemma exact_scale_of_composed (S : R) (t : Vec3) (Rm : Mat3) (RTS : Mat4) :
  0 < S → determinant Rm = 1 →
  determinant (topLeftCorner33 (composeRTS S t Rm RTS)) = S * S * S
  ∧ std.pow (determinant (topLeftCorner33 (composeRTS S t Rm RTS))) (1 / 3) = S.
Proof.
  intros HS Hdet.
  assert (Hd : determinant (topLeftCorner33 (composeRTS S t Rm RTS)) = S * S * S).
  { rewrite topLeftCorner33_composeRTS, determinant_mscale, Hdet. ring. }
  split; [exact Hd |]. rewrite Hd. apply pow_third_cube, HS.
Qed.

Lemma exact_decomposeRTS_composed (S : R) (t : Vec3) (Rm : Mat3) (RTS : Mat4)
    (o : SRt) :
  std.numeric_limits_epsilon <= S → determinant Rm = 1 →
  @decomposeRTS exact_arithmetic (composeRTS S t Rm RTS) o
  = (true, mkSRt S t Rm).
Proof.
  intros HS Hdet. pose proof epsilon_pos as Heps.
  destruct (exact_scale_of_composed S t Rm RTS) as [Hd Hp]; [lra | assumption |].
  assert (Hcube : 0 < S * S * S) by (repeat apply Rmult_lt_0_compat; lra).
  rewrite decomposeRTS_similarity; exact_ops; rewrite ?Hp.
  - rewrite topLeftCorner33_composeRTS, topRightCorner31_composeRTS.
    f_equal. f_equal. apply mdiv_mscale. lra.
  - rewrite Hd. lra.
  - lra.
Qed.


End ExactRuns.

Section SimilarityClaims.
Local Open Scope R_scope.

(** C7, on the input where it fails: composing scale 1, the identity
    rotation and the zero translation into a matrix that held only
    zeros gives the block S·R and the column t, but the last row is
    still (0, 0, 0, 0) and not (0, 0, 0, 1). *)
Theorem composeRTS_bottom_row_not_written :
  let RTS := composeRTS 1 Vec3_Zero Mat3_Identity Mat4_Zero in
  topLeftCorner33 RTS = mscale 1 Mat3_Identity
  ∧ topRightCorner31 RTS = Vec3_Zero
  ∧ bottomRow RTS = mkVec4 0 0 0 0
  ∧ bottomRow RTS ≠ mkVec4 0 0 0 1.
Proof.
  simpl. repeat split.
  intros Heq. inversion Heq. lra.
Qed.

Context {fl : Binary64}.


(** C10: when [decomposeRTS] returns false, [t] holds what it held
    before the call and [R] holds the top-left block of the input as it
    is; when it was the first guard that fired (the computed
    determinant is negative) [S] holds what it held before, and when it
    was the second [S] holds the computed scale [pow(det, 1.0 / 3.0)],
    which is below the machine epsilon. *)
Theorem decomposeRTS_failure_frame (RTS : Mat4) (o o' : SRt) :
  decomposeRTS RTS o = (false, o') →
  let det := fl_determinant (topLeftCorner33 RTS) in
  out_t o' = out_t o
  ∧ out_R o' = topLeftCorner33 RTS
  ∧ (det < 0 → out_S o' = out_S o)
  ∧ (¬ det < 0 →
     out_S o' = fl_pow det (fl_div 1 3)
     ∧ out_S o' < std.numeric_limits_epsilon).
Proof.
  intros Hret det. subst det.
  destruct (Rlt_dec (fl_determinant (topLeftCorner33 RTS)) 0) as [Hd | Hd].
  - rewrite decomposeRTS_negative in Hret by assumption.
    inversion Hret; subst o'; simpl.
    repeat split; try reflexivity; contradiction.
  - destruct (Rlt_dec (fl_pow (fl_determinant (topLeftCorner33 RTS)) (fl_div 1 3))
                std.numeric_limits_epsilon) as [Hs | Hs].
    + rewrite decomposeRTS_degenerate in Hret by assumption.
      inversion Hret; subst o'; simpl.
      repeat split; try reflexivity; try assumption; contradiction.
    + rewrite decomposeRTS_similarity in Hret by assumption. discriminate.
Qed.


End SimilarityClaims.

Section SimilarityClaimRuns.
Local Open Scope R_scope.


Lemma decomposeRTS_failure_frame_witness :
  let o' := set_S (set_R prior_outputs (topLeftCorner33 Mat4_Zero)) 0 in
  @decomposeRTS exact_arithmetic Mat4_Zero prior_outputs = (false, o')
  ∧ out_t o' = out_t prior_outputs
  ∧ out_R o' = topLeftCorner33 Mat4_Zero
  ∧ out_R o' ≠ out_R prior_outputs
  ∧ out_S o' ≠ out_S prior_outputs.
Proof.
  intros o'.
  pose proof (exact_decomposeRTS_Zero prior_outputs) as Hret.
  destruct (@decomposeRTS_failure_frame exact_arithmetic
              Mat4_Zero prior_outputs o' Hret) as (Ht & HR & _ & _).
  split; [exact Hret |]. split; [exact Ht |]. split; [exact HR |].
  split.
  - simpl. intros Heq. inversion Heq. lra.
  - simpl. lra.
Defined.

(** A failure on a negative determinant overwrites [R] and nothing
    else. *)
Lemma decomposeRTS_mirror :
  @decomposeRTS exact_arithmetic Mat4_mirror prior_outputs
  = (false, mkSRt 7 (mkVec3 1 2 3) (mkMat3 1 0 0  0 1 0  0 0 (-1))).
Proof. apply exact_decomposeRTS_mirror. Qed.



End SimilarityClaimRuns.

(** ** [FindRTS] *)

Section FindRTSClaims.
Local Open Scope R_scope.
Context {fl : Binary64}.

(** C8, as amended: when either point set has fewer than three
    columns, [FindRTS] returns false and leaves the three
    out-parameters as they were; no assertion is evaluated. *)
Theorem FindRTS_too_few_points (umeyama : Mat → Mat → Mat4)
    (x1 x2 : Mat) (o : SRt) :
  (cols x1 < 3)%nat ∨ (cols x2 < 3)%nat →
  FindRTS umeyama x1 x2 o = Returned (false, o).
Proof.
  intros Hfew. unfold FindRTS.
  destruct Hfew as [H1 | H2].
  - rewrite (bool_decide_eq_true_2 _ H1). reflexivity.
  - rewrite (bool_decide_eq_true_2 _ H2), orb_true_r. reflexivity.
Qed.

(** With three columns or more the assertions are reached: a first
    point set that has not three rows fails the first of them. *)
Lemma FindRTS_asserts_rows (umeyama : Mat → Mat → Mat4)
    (x1 x2 : Mat) (o : SRt) :
  (3 ≤ cols x1)%nat → (3 ≤ cols x2)%nat → rows x1 ≠ 3%nat →
  FindRTS umeyama x1 x2 o = AssertionFailed.
Proof.
  intros H1 H2 Hr. unfold FindRTS.
  rewrite (bool_decide_eq_false_2 (cols x1 < 3)%nat) by lia.
  rewrite (bool_decide_eq_false_2 (cols x2 < 3)%nat) by lia.
  simpl.
  rewrite (bool_decide_eq_false_2 (3%nat = rows x1)) by congruence.
  reflexivity.
Qed.

End FindRTSClaims.

Section FindRTSClaimRuns.
Local Open Scope R_scope.

Lemma FindRTS_too_few_points_witness :
  @FindRTS exact_arithmetic (λ _ _, Mat4_Identity)
    (points_on_axis 2) (points_on_axis_shifted 2) prior_outputs
  = Returned (false, prior_outputs).
Proof.
  apply (@FindRTS_too_few_points exact_arithmetic (λ _ _, Mat4_Identity)
           (points_on_axis 2) (points_on_axis_shifted 2) prior_outputs).
  left. simpl. lia.
Defined.

(** C8 fails as stated: it is not so that every call with fewer than
    three correspondences ends in a failed assertion; the call on the
    two correspondences of [points_on_axis 2] returns false. *)
Lemma FindRTS_too_few_points_is_no_assertion :
  ¬ (∀ (fl : Binary64) (umeyama : Mat → Mat → Mat4) (x1 x2 : Mat) (o : SRt),
       (cols x1 < 3)%nat → (cols x2 < 3)%nat →
       FindRTS umeyama x1 x2 o = AssertionFailed).
Proof.
  intros Hclaim.
  specialize (Hclaim exact_arithmetic (λ _ _, Mat4_Identity)
                (points_on_axis 2) (points_on_axis_shifted 2) prior_outputs).
  assert (H2 : (2 < 3)%nat) by lia.
  specialize (Hclaim H2 H2).
  unfold FindRTS in Hclaim. simpl in Hclaim. discriminate.
Qed.

End FindRTSClaimRuns.

(** ** The kernel adaptor *)

Section AdaptorClaims.
Local Open Scope R_scope.
Import ACKernelAdaptor_PointsRegistrationSRT.

Lemma squared_residual_squaredNorm (M : Mat4) (x1 x2 : Vec3) :
  squared_residual M x1 x2
  = squaredNorm (vsub x2 (vadd (mapply (topLeftCorner33 M) x1) (topRightCorner31 M))).
Proof. unfold squared_residual, squaredNorm. simpl. ring. Qed.

(** C6, as amended: the adaptor's [Error(i, M)] is the square of what
    the error metric returns on correspondence [i].  With the metric
    [RTSSolver], which returns the residual norm, it is the squared
    residual; with the metric [RTSSquaredResidualError], which returns
    the squared residual, it is the square of the squared residual. *)
Theorem adaptor_Error_squares_the_metric (k : t) (i : nat) (M : Mat4) :
  (∀ ErrorT : ErrorArg,
      @Error ErrorT k i M
      = Square (@ErrorT_Error ErrorT M (col3 (x1_ k) i) (col3 (x2_ k) i)))
  ∧ @Error RTSSolver_ErrorArg k i M
    = squared_residual M (col3 (x1_ k) i) (col3 (x2_ k) i)
  ∧ @Error RTSSquaredResidualError_ErrorArg k i M
    = squared_residual M (col3 (x1_ k) i) (col3 (x2_ k) i) ^ 2.
Proof.
  split; [reflexivity |]. split.
  - unfold Error; simpl. unfold RTSSolver.Error.
    rewrite Square_norm, squared_residual_squaredNorm. reflexivity.
  - unfold Error; simpl. unfold RTSSquaredResidualError.Error.
    rewrite squared_residual_squaredNorm. unfold Square. ring.
Qed.

(** C6 fails as stated: with the metric [RTSSquaredResidualError], the
    identity model and the correspondence (0,0,0), (2,0,0), the squared
    residual is 4 and [Error] returns 16. *)
Lemma adaptor_Error_fourth_power :
  squared_residual Mat4_Identity
    (col3 (x1_ adaptor_two_points) 0) (col3 (x2_ adaptor_two_points) 0) = 4
  ∧ @Error RTSSquaredResidualError_ErrorArg adaptor_two_points 0 Mat4_Identity = 16
  ∧ @Error RTSSquaredResidualError_ErrorArg adaptor_two_points 0 Mat4_Identity
    ≠ squared_residual Mat4_Identity
        (col3 (x1_ adaptor_two_points) 0) (col3 (x2_ adaptor_two_points) 0).
Proof.
  assert (H4 : squared_residual Mat4_Identity
                 (col3 (x1_ adaptor_two_points) 0)
                 (col3 (x2_ adaptor_two_points) 0) = 4).
  { unfold squared_residual; simpl. ring. }
  assert (H16 : @Error RTSSquaredResidualError_ErrorArg
                  adaptor_two_points 0 Mat4_Identity = 16).
  { unfold Error, Square; simpl.
    unfold RTSSquaredResidualError.Error, squaredNorm; simpl. ring. }
  split; [exact H4 |]. split; [exact H16 |].
  rewrite H4, H16. lra.
Qed.

(** The loop of [Errors] after [j] rounds: the first [j] entries are
    written, the others are as they were. *)
Lemma write_all_prefix (f : nat → R) (l : list R) (j : nat) :
  (j ≤ length l)%nat →
  foldl (λ v sample, <[sample := f sample]> v) l (seq 0 j)
  = (f <$> seq 0 j) ++ drop j l.
Proof.
  induction j as [| j IH]; intros Hj.
  - simpl. rewrite drop_0. reflexivity.
  - rewrite seq_S, foldl_snoc, fmap_app, IH by lia. simpl.
    destruct (lookup_lt_is_Some_2 l j) as [x Hx]; [lia |].
    rewrite (drop_S l x j Hx).
    rewrite insert_app_r_alt by (rewrite length_fmap, length_seq; lia).
    rewrite length_fmap, length_seq, Nat.sub_diag. simpl.
    rewrite <- app_assoc. reflexivity.
Qed.

Lemma Errors_unfold {ErrorT : ErrorArg} (k : t) (M : Mat4) (v : list R) :
  Errors k M v = (λ i, Error k i M) <$> seq 0 (NumSamples k).
Proof.
  unfold Errors, NumSamples, Error.
  rewrite write_all_prefix by (rewrite length_resize; lia).
  rewrite drop_ge by (rewrite length_resize; lia).
  apply app_nil_r.
Qed.

(** C9: whatever the vector held before, after [Errors(M, vec)] its
    length is [NumSamples()] and, for every index below that number,
    its entry is [Error(i, M)]. *)
Theorem adaptor_Errors_pointwise {ErrorT : ErrorArg}
    (k : t) (M : Mat4) (vec_errors : list R) :
  length (Errors k M vec_errors) = NumSamples k
  ∧ ∀ i : nat, (i < NumSamples k)%nat →
      Errors k M vec_errors !! i = Some (Error k i M).
Proof.
  rewrite Errors_unfold. split.
  - rewrite length_fmap, length_seq. reflexivity.
  - intros i Hi. rewrite list_lookup_fmap, lookup_seq_lt by assumption.
    reflexivity.
Qed.

Lemma adaptor_Errors_pointwise_witness :
  length (@Errors RTSSolver_ErrorArg adaptor_two_points Mat4_Identity [9; 9; 9]) = 2%nat
  ∧ @Errors RTSSolver_ErrorArg adaptor_two_points Mat4_Identity [9; 9; 9] !! 1%nat
    = Some (@Error RTSSolver_ErrorArg adaptor_two_points 1 Mat4_Identity).
Proof.
  destruct (@adaptor_Errors_pointwise RTSSolver_ErrorArg
              adaptor_two_points Mat4_Identity [9; 9; 9]) as [Hlen Hat].
  split; [exact Hlen |].
  apply Hat. unfold NumSamples; simpl. lia.
Defined.

End AdaptorClaims.

(** ** The fundamental-matrix solvers *)

Import fundamental.kernel.

Section SolverClaims.
Local Open Scope R_scope.

Variable EncodeEpipolarEquation : Mat → Mat → option (list R) → Mat → Mat.
Variable Nullspace : Mat → Vec9.
Variable Nullspace2 : Mat → Vec9 * Vec9.
Variable SolveCubicPolynomial : Vec4 → Vec3 → Z * Vec3.
Variable JacobiSVD : Mat3 → JacobiSVD_result.
Variable uninitialized_A : nat → nat → R.
Variable uninitialized_roots : Vec3.

(** The coefficients the seven-point solver hands to the root-finder
    are those of det(F1 + x·F2). *)
Lemma cubic_coeffs_determinant (F1 F2 : Mat3) (x : R) :
  determinant (madd F1 (mscale x F2)) = cubic (cubic_coeffs F1 F2) x.
Proof.
  unfold determinant, cubic, cubic_coeffs, madd, mscale; simpl. ring.
Qed.

Lemma roots_at_lookup (roots : Vec3) (kk : nat) :
  roots_at roots kk = roots_list roots !! kk.
Proof. destruct kk as [| [| [| kk]]]; reflexivity. Qed.

(** The loop over indices that are all inside [roots] appends one
    candidate per index, in order. *)
Lemma push_candidates_in_bounds (F1 F2 : Mat3) (roots : Vec3)
    (kks : list nat) (rs : list R) (F : list Mat3) :
  Forall2 (λ kk r, roots_list roots !! kk = Some r) kks rs →
  push_candidates F1 F2 roots kks F
  = Returned (F ++ ((λ r, madd F1 (mscale r F2)) <$> rs)).
Proof.
  intros Hall. revert F.
  induction Hall as [| kk r kks rs Hkk _ IH]; intros F; simpl.
  - rewrite app_nil_r. reflexivity.
  - rewrite roots_at_lookup, Hkk, IH, <- app_assoc. reflexivity.
Qed.

Lemma first_indices_in_bounds {A} (l : list A) (n : nat) :
  (n ≤ length l)%nat →
  Forall2 (λ kk r, l !! kk = Some r) (seq 0 n) (take n l).
Proof.
  intros Hn. apply Forall2_same_length_lookup_2.
  - rewrite length_seq, length_take. lia.
  - intros i kk r Hkk Hr.
    apply lookup_seq in Hkk as [-> _].
    rewrite lookup_take_Some in Hr. destruct Hr as [Hr _]. exact Hr.
Qed.

Lemma push_candidates_past_end (F1 F2 : Mat3) (roots : Vec3)
    (n : nat) (F : list Mat3) :
  (3 < n)%nat →
  push_candidates F1 F2 roots (seq 0 n) F = OutOfBounds.
Proof.
  intros Hn.
  do 4 (destruct n as [| n]; [lia |]). reflexivity.
Qed.

Local Abbreviation basis := (seven_point_basis EncodeEpipolarEquation Nullspace2 uninitialized_A).
Local Abbreviation Solve7 :=
  (SevenPointSolver_Solve EncodeEpipolarEquation Nullspace2
     SolveCubicPolynomial uninitialized_A uninitialized_roots).
Local Abbreviation nullspace8 :=
  (eight_point_nullspace EncodeEpipolarEquation Nullspace uninitialized_A).
Local Abbreviation Solve8 :=
  (EightPointSolver_Solve EncodeEpipolarEquation Nullspace JacobiSVD uninitialized_A).

Lemma SevenPointSolver_Solve_unfold (x1 x2 : Mat) (F : list Mat3) :
  rows x1 = 2%nat → (7 ≤ cols x1)%nat → rows x2 = 2%nat → cols x2 = cols x1 →
  Solve7 x1 x2 F
  = let F1 := fst (basis x1 x2) in
    let F2 := snd (basis x1 x2) in
    let found := SolveCubicPolynomial (cubic_coeffs F1 F2) uninitialized_roots in
    push_candidates F1 F2 (snd found) (seq 0 (Z.to_nat (fst found))) F.
Proof.
  intros Hr Hc Hr2 Hc2. unfold SevenPointSolver_Solve.
  rewrite (bool_decide_eq_true_2 (2%nat = rows x1)) by congruence.
  rewrite (bool_decide_eq_true_2 (7 ≤ cols x1)%nat) by assumption.
  rewrite (bool_decide_eq_true_2 (rows x1 = rows x2)) by congruence.
  rewrite (bool_decide_eq_true_2 (cols x1 = cols x2)) by congruence.
  simpl.
  destruct (basis x1 x2) as [F1 F2]; simpl.
  destruct (SolveCubicPolynomial (cubic_coeffs F1 F2) uninitialized_roots)
    as [num_roots roots]; reflexivity.
Qed.

(** C4: on two 2xN point sets with N at least 7, when the root-finder
    is given the cubic det(F1 + x·F2) and reports a count between 0
    and 3, the solver returns, appends as many candidates as reported,
    the candidate of rank kk being F1 + roots[kk]·F2; when it reports
    no root, nothing is appended and the call returns all the same. *)
Theorem SevenPointSolver_one_candidate_per_root (x1 x2 : Mat) (F : list Mat3) :
  rows x1 = 2%nat → (7 ≤ cols x1)%nat → rows x2 = 2%nat → cols x2 = cols x1 →
  let F1 := fst (basis x1 x2) in
  let F2 := snd (basis x1 x2) in
  let P := cubic_coeffs F1 F2 in
  let num_roots := fst (SolveCubicPolynomial P uninitialized_roots) in
  let roots := snd (SolveCubicPolynomial P uninitialized_roots) in
  (0 ≤ num_roots ≤ 3)%Z →
  (∀ x, cubic P x = determinant (madd F1 (mscale x F2)))
  ∧ (∃ candidates : list Mat3,
        Solve7 x1 x2 F = Returned (F ++ candidates)
        ∧ Z.of_nat (length candidates) = num_roots
        ∧ candidates
          = (λ root, madd F1 (mscale root F2))
              <$> take (Z.to_nat num_roots) (roots_list roots))
  ∧ (num_roots = 0%Z → Solve7 x1 x2 F = Returned F).
Proof.
  intros Hr Hc Hr2 Hc2 F1 F2 P num_roots roots Hn.
  assert (Hsolve : Solve7 x1 x2 F
            = Returned (F ++ ((λ root, madd F1 (mscale root F2))
                                <$> take (Z.to_nat num_roots) (roots_list roots)))).
  { rewrite SevenPointSolver_Solve_unfold by assumption. cbv zeta.
    apply push_candidates_in_bounds, first_indices_in_bounds.
    simpl. fold F1 F2 P num_roots. lia. }
  split; [| split].
  - intros x. symmetry. apply cubic_coeffs_determinant.
  - eexists. split; [exact Hsolve |]. split; [| reflexivity].
    rewrite length_fmap, length_take. simpl. lia.
  - intros H0. rewrite Hsolve, H0. simpl. apply f_equal, app_nil_r.
Qed.

Lemma EightPointSolver_Solve_unfold (x1 x2 : Mat) (Fs : list Mat3)
    (weights : option (list R)) :
  rows x1 = 2%nat → (8 ≤ cols x1)%nat → rows x2 = 2%nat → cols x2 = cols x1 →
  Solve8 x1 x2 Fs weights
  = Returned (Fs ++ [if bool_decide (8 < cols x1)%nat
                     then force_rank2 JacobiSVD (nullspace8 x1 x2 weights)
                     else nullspace8 x1 x2 weights]).
Proof.
  intros Hr Hc Hr2 Hc2. unfold EightPointSolver_Solve.
  rewrite (bool_decide_eq_true_2 (2%nat = rows x1)) by congruence.
  rewrite (bool_decide_eq_true_2 (8 ≤ cols x1)%nat) by assumption.
  rewrite (bool_decide_eq_true_2 (rows x1 = rows x2)) by congruence.
  rewrite (bool_decide_eq_true_2 (cols x1 = cols x2)) by congruence.
  reflexivity.
Qed.

(** C3: on two 2xN point sets with N at least 8 the solver returns and
    appends exactly one matrix.  For N = 8 it is the null-space vector
    of the 9x9 system read row by row, as it is; for N > 8 it is
    U·diag(d0, d1, 0)·Vᵀ for the decomposition U, d, V of the
    null-space vector of the Nx9 system read row by row. *)
Theorem EightPointSolver_rank2_only_above_eight (x1 x2 : Mat) (Fs : list Mat3)
    (weights : option (list R)) :
  rows x1 = 2%nat → (8 ≤ cols x1)%nat → rows x2 = 2%nat → cols x2 = cols x1 →
  (∃ F : Mat3, Solve8 x1 x2 Fs weights = Returned (Fs ++ [F]))
  ∧ (cols x1 = 8%nat →
     Solve8 x1 x2 Fs weights
     = Returned (Fs ++ [Map_RMat3 (Nullspace
                          (EncodeEpipolarEquation x1 x2 weights (Mat_Zero 9 9)))]))
  ∧ ((8 < cols x1)%nat →
     let F0 := Map_RMat3 (Nullspace
                 (EncodeEpipolarEquation x1 x2 weights
                    (mkMat (cols x1) 9 uninitialized_A))) in
     let USV := JacobiSVD F0 in
     let d := singularValues USV in
     Solve8 x1 x2 Fs weights
     = Returned (Fs ++ [mmul (mmul (matrixU USV)
                                (asDiagonal (mkVec3 (v3_0 d) (v3_1 d) 0)))
                             (transpose (matrixV USV))])).
Proof.
  intros Hr Hc Hr2 Hc2.
  rewrite EightPointSolver_Solve_unfold by assumption.
  split; [eexists; reflexivity |]. split.
  - intros H8.
    rewrite (bool_decide_eq_false_2 (8 < cols x1)%nat) by lia.
    unfold eight_point_nullspace.
    rewrite (bool_decide_eq_true_2 (cols x1 = 8%nat)) by assumption.
    reflexivity.
  - intros H9. cbv zeta.
    rewrite (bool_decide_eq_true_2 (8 < cols x1)%nat) by assumption.
    unfold eight_point_nullspace.
    rewrite (bool_decide_eq_false_2 (cols x1 = 8%nat)) by lia.
    reflexivity.
Qed.

End SolverClaims.

(** ** Sampling without replacement *)

Import robustEstimation.

Section SamplingClaims.
Context {Gen : Type}.
Variable next : Gen → nat * Gen.

Lemma randomUniformInt_lower (a b : nat) (g : Gen) :
  a ≤ (randomUniformInt next a b g).1.
Proof.
  unfold randomUniformInt. destruct (next g) as [raw g']. simpl. lia.
Qed.

Lemma randomUniformInt_upper (a b : nat) (g : Gen) :
  a ≤ b → (randomUniformInt next a b g).1 ≤ b.
Proof.
  intros Hab. unfold randomUniformInt. destruct (next g) as [raw g']. simpl.
  pose proof (Nat.mod_upper_bound raw (b - a + 1)). lia.
Qed.

(** A list with two marked positions, taken apart around them. *)
Lemma split_at_two (l : list nat) (i j : nat) (x y : nat) :
  i < j → l !! i = Some x → l !! j = Some y →
  ∃ A B C, l = A ++ x :: B ++ y :: C
           ∧ length A = i ∧ length (A ++ x :: B) = j.
Proof.
  intros Hij Hi Hj.
  pose proof (lookup_lt_Some _ _ _ Hi) as Hli.
  assert (Hj' : drop (S i) l !! (j - S i) = Some y).
  { rewrite lookup_drop. replace (S i + (j - S i)) with j by lia. exact Hj. }
  exists (take i l), (take (j - S i) (drop (S i) l)),
         (drop (S (j - S i)) (drop (S i) l)).
  split; [| split].
  - rewrite (take_drop_middle _ _ _ Hj'). symmetry. apply take_drop_middle, Hi.
  - rewrite length_take. lia.
  - pose proof (lookup_lt_Some _ _ _ Hj') as Hlj.
    rewrite length_app, length_take. simpl. rewrite length_take. lia.
Qed.

(** Swapping two positions permutes the list. *)
Lemma swap_Permutation (i j : nat) (vals : list nat) :
  i ≤ j → swap i j vals ≡ₚ vals.
Proof.
  intros Hij. unfold swap.
  destruct (vals !! i) as [x |] eqn:Hi; [| reflexivity].
  destruct (vals !! j) as [y |] eqn:Hj; [| reflexivity].
  destruct (decide (i = j)) as [-> | Hne].
  - rewrite list_insert_insert_eq, list_insert_id; [reflexivity | congruence].
  - destruct (split_at_two vals i j x y) as (A & B & C & -> & HA & HB);
      [lia | assumption | assumption |].
    rewrite (insert_app_r_alt A) by lia.
    rewrite HA, Nat.sub_diag. simpl.
    change (A ++ y :: B ++ y :: C) with (A ++ (y :: B) ++ y :: C).
    rewrite app_assoc, insert_app_r_alt by (rewrite length_app in *; simpl in *; lia).
    replace (j - length (A ++ y :: B)) with 0
      by (rewrite length_app in *; simpl in *; lia).
    simpl. rewrite <- app_assoc. simpl.
    apply Permutation_app_head.
    rewrite <- !Permutation_middle. apply Permutation_swap.
Qed.

(** The selection loop permutes the values it is given. *)
Lemma select_Permutation (steps i : nat) (vals : list nat) (g : Gen) :
  (select next steps i vals g).1 ≡ₚ vals.
Proof.
  revert i vals g.
  induction steps as [| steps IH]; intros i vals g; simpl; [reflexivity |].
  pose proof (randomUniformInt_lower i (length vals - 1) g) as Hj.
  destruct (randomUniformInt next i (length vals - 1) g) as [j g'].
  simpl in Hj. rewrite IH. apply swap_Permutation, Hj.
Qed.

(** Every draw of the loop falls on a position of the list when the
    loop is asked for no more values than there are. *)
Lemma select_draws_in_range (i : nat) (vals : list nat) (g : Gen) :
  i < length vals →
  i ≤ (randomUniformInt next i (length vals - 1) g).1 < length vals.
Proof.
  intros Hi. split; [apply randomUniformInt_lower |].
  pose proof (randomUniformInt_upper i (length vals - 1) g). lia.
Qed.

Lemma UniformSample_unfold (lo hi k : nat) (g : Gen) :
  k ≤ hi - lo →
  UniformSample next lo hi k g
  = Returned (take k (select next k 0 (seq lo (hi - lo)) g).1,
              (select next k 0 (seq lo (hi - lo)) g).2).
Proof.
  intros Hk. unfold UniformSample.
  rewrite (bool_decide_eq_true_2 _ Hk). simpl.
  destruct (select next k 0 (seq lo (hi - lo)) g) as [vals g']. reflexivity.
Qed.

Lemma UniformSample_properties (lo hi k : nat) (g : Gen) :
  k ≤ hi - lo →
  ∃ (samples : list nat) (g' : Gen),
    UniformSample next lo hi k g = Returned (samples, g')
    ∧ length samples = k
    ∧ (∀ e, e ∈ samples → lo ≤ e < hi)
    ∧ NoDup samples.
Proof.
  intros Hk.
  pose proof (select_Permutation k 0 (seq lo (hi - lo)) g) as Hperm.
  eexists _, _. split; [apply UniformSample_unfold, Hk |].
  split; [| split].
  - rewrite length_take, Hperm, length_seq. lia.
  - intros e He. apply subseteq_take in He.
    rewrite Hperm in He. apply elem_of_seq in He. lia.
  - eapply sublist_NoDup; [| apply sublist_take].
    rewrite Hperm. apply NoDup_seq.
Qed.

(** The call fails fast when more values are asked for than the range
    holds. *)
Lemma UniformSample_too_many (lo hi k : nat) (g : Gen) :
  hi - lo < k → UniformSample next lo hi k g = AssertionFailed.
Proof.
  intros Hk. unfold UniformSample.
  rewrite bool_decide_eq_false_2 by lia. reflexivity.
Qed.

(** C1: for a count [k] that is at most [hi - lo], and from every state
    of the random-number source, the sampling returns exactly [k]
    integers, each at least [lo] and below [hi], no two of them equal;
    and so does the form over [0, hi) for a count that is at most
    [hi]. *)
Theorem UniformSample_distinct_in_range (lo hi k : nat) (g : Gen) :
  k ≤ hi - lo →
  (∃ (samples : list nat) (g' : Gen),
      UniformSample next lo hi k g = Returned (samples, g')
      ∧ length samples = k
      ∧ (∀ e, e ∈ samples → lo ≤ e < hi)
      ∧ NoDup samples)
  ∧ (lo = 0 →
     ∃ (samples : list nat) (g' : Gen),
       UniformSample0 next k hi g = Returned (samples, g')
       ∧ length samples = k
       ∧ (∀ e, e ∈ samples → e < hi)
       ∧ NoDup samples).
Proof.
  intros Hk. split; [apply UniformSample_properties, Hk |].
  intros ->. unfold UniformSample0.
  destruct (UniformSample_properties 0 hi k g Hk)
    as (samples & g' & Hret & Hlen & Hrange & Hnodup).
  exists samples, g'. repeat split; try assumption.
  intros e He. apply Hrange, He.
Qed.

End SamplingClaims.

(** ** The code run on concrete inputs *)

Section Runs.
Local Open Scope R_scope.

Lemma UniformSample_distinct_in_range_witness :
  ∃ (samples : list nat) (g' : N),
    UniformSample lcg_next 3 10 4 42%N = Returned (samples, g')
    ∧ length samples = 4%nat
    ∧ (∀ e, e ∈ samples → (3 ≤ e < 10)%nat)
    ∧ NoDup samples.
Proof.
  apply (UniformSample_distinct_in_range lcg_next 3 10 4 42%N).
  simpl. lia.
Defined.

Example UniformSample_run :
  UniformSample lcg_next 3 10 4 42%N = Returned ([9; 3; 4; 7]%nat, 1668674806%N).
Proof. vm_compute. reflexivity. Qed.

Example UniformSample_run_whole_range :
  UniformSample lcg_next 0 8 8 7%N
  = Returned ([4; 7; 0; 1; 3; 2; 6; 5]%nat, 2083449087%N).
Proof. vm_compute. reflexivity. Qed.

Example UniformSample0_run :
  UniformSample0 lcg_next 4 16 1%N = Returned ([6; 14; 7; 2]%nat, 1147902781%N).
Proof. vm_compute. reflexivity. Qed.

Example UniformSample_run_empty :
  UniformSample lcg_next 5 5 0 42%N = Returned ([], 42%N).
Proof. vm_compute. reflexivity. Qed.

Example UniformSample_run_too_many :
  UniformSample lcg_next 3 10 8 42%N = AssertionFailed.
Proof. vm_compute. reflexivity. Qed.

Lemma SevenPointSolver_one_candidate_per_root_witness :
  ∃ candidates : list Mat3,
    SevenPointSolver_Solve sample_Encode sample_Nullspace2 sample_one_root
      (λ _ _, 0) Vec3_Zero (image_points 7) (image_points' 7) []
    = Returned ([] ++ candidates)
    ∧ Z.of_nat (length candidates) = 1%Z.
Proof.
  destruct (SevenPointSolver_one_candidate_per_root
              sample_Encode sample_Nullspace2 sample_one_root
              (λ _ _, 0) Vec3_Zero (image_points 7) (image_points' 7) [])
    as (_ & (candidates & Hret & Hlen & _) & _).
  - reflexivity.
  - simpl. lia.
  - reflexivity.
  - reflexivity.
  - simpl. lia.
  - exists candidates. split; [exact Hret | exact Hlen].
Defined.

(** A root-finder that reports no root: nothing is appended, and the
    call returns. *)
Example SevenPointSolver_run_no_root :
  SevenPointSolver_Solve sample_Encode sample_Nullspace2 sample_no_root
    (λ _ _, 0) Vec3_Zero (image_points 7) (image_points' 7) [Mat3_Identity]
  = Returned [Mat3_Identity].
Proof. reflexivity. Qed.

(** Six correspondences fail the second assertion. *)
Example SevenPointSolver_run_six_points :
  SevenPointSolver_Solve sample_Encode sample_Nullspace2 sample_one_root
    (λ _ _, 0) Vec3_Zero (image_points 6) (image_points' 6) []
  = AssertionFailed.
Proof. reflexivity. Qed.

Lemma EightPointSolver_rank2_only_above_eight_witness :
  EightPointSolver_Solve sample_Encode sample_Nullspace sample_SVD (λ _ _, 0)
    (image_points 8) (image_points' 8) [] None
  = Returned [mkMat3 1 0 0  0 2 0  0 0 3]
  ∧ EightPointSolver_Solve sample_Encode sample_Nullspace sample_SVD (λ _ _, 0)
      (image_points 9) (image_points' 9) [] None
    = Returned [mkMat3 1 0 0  0 2 0  0 0 0].
Proof.
  split.
  - destruct (EightPointSolver_rank2_only_above_eight
                sample_Encode sample_Nullspace sample_SVD (λ _ _, 0)
                (image_points 8) (image_points' 8) [] None)
      as (_ & Height & _);
      [reflexivity | simpl; lia | reflexivity | reflexivity |].
    rewrite Height by reflexivity. reflexivity.
  - destruct (EightPointSolver_rank2_only_above_eight
                sample_Encode sample_Nullspace sample_SVD (λ _ _, 0)
                (image_points 9) (image_points' 9) [] None)
      as (_ & _ & Hmore);
      [reflexivity | simpl; lia | reflexivity | reflexivity |].
    rewrite Hmore by (simpl; lia).
    unfold mmul, asDiagonal, transpose, sample_SVD, sample_Nullspace; simpl.
    do 2 f_equal. f_equal; ring.
Defined.

End Runs.

(** * Further properties of the code *)

(** ** [composeRTS] and [decomposeRTS] *)

Section SimilarityMore.
Local Open Scope R_scope.

Lemma Mat4_by_parts (A B : Mat4) :
  topLeftCorner33 A = topLeftCorner33 B →
  topRightCorner31 A = topRightCorner31 B →
  bottomRow A = bottomRow B →
  A = B.
Proof.
  destruct A, B. unfold topLeftCorner33, topRightCorner31, bottomRow; simpl.
  intros H1 H2 H3. inversion H1; inversion H2; inversion H3; subst. reflexivity.
Qed.

(** X1: [composeRTS] yields the documented matrix [S*R | t; 0 0 0 1]
    exactly when the last row of the output matrix was (0, 0, 0, 1)
    before the call. *)
Theorem composeRTS_documented_iff_last_row (S : R) (t : Vec3) (Rm : Mat3)
    (RTS : Mat4) :
  composeRTS S t Rm RTS = similarity_matrix S Rm t
  ↔ bottomRow RTS = mkVec4 0 0 0 1.
Proof.
  split.
  - intros Heq. rewrite <- (bottomRow_composeRTS S t Rm RTS), Heq. reflexivity.
  - intros Hrow. apply Mat4_by_parts.
    + reflexivity.
    + rewrite topRightCorner31_composeRTS. destruct t; reflexivity.
    + rewrite bottomRow_composeRTS, Hrow. reflexivity.
Qed.

(** X2: the result of [composeRTS] depends on the prior content of the
    output matrix through its last row only: two prior contents give the
    same result exactly when their last rows agree.  So a second call
    overrides a first one. *)
Theorem composeRTS_prior_content (S : R) (t : Vec3) (Rm : Mat3)
    (RTS RTS' : Mat4) :
  (composeRTS S t Rm RTS = composeRTS S t Rm RTS'
   ↔ bottomRow RTS = bottomRow RTS')
  ∧ ∀ S0 t0 R0, composeRTS S t Rm (composeRTS S0 t0 R0 RTS) = composeRTS S t Rm RTS.
Proof.
  split; [split |].
  - intros Heq.
    rewrite <- (bottomRow_composeRTS S t Rm RTS), Heq. apply bottomRow_composeRTS.
  - intros Hrow. apply Mat4_by_parts.
    + reflexivity.
    + rewrite !topRightCorner31_composeRTS. reflexivity.
    + rewrite !bottomRow_composeRTS. exact Hrow.
  - intros S0 t0 R0. reflexivity.
Qed.

End SimilarityMore.

Section DecomposeMore.
Local Open Scope R_scope.
Context {fl : Binary64}.

(** What a true return of [decomposeRTS] tells. *)
Lemma decomposeRTS_true_inv (RTS : Mat4) (o o' : SRt) :
  decomposeRTS RTS o = (true, o') →
  let det := fl_determinant (topLeftCorner33 RTS) in
  ¬ det < 0
  ∧ ¬ fl_pow det (fl_div 1 3) < std.numeric_limits_epsilon
  ∧ o' = mkSRt (fl_pow det (fl_div 1 3)) (topRightCorner31 RTS)
               (mdiv_assign (topLeftCorner33 RTS) (fl_pow det (fl_div 1 3))).
Proof.
  intros Hret det. subst det.
  destruct (Rlt_dec (fl_determinant (topLeftCorner33 RTS)) 0) as [Hd | Hd].
  { rewrite decomposeRTS_negative in Hret by assumption. discriminate. }
  destruct (Rlt_dec (fl_pow (fl_determinant (topLeftCorner33 RTS)) (fl_div 1 3))
              std.numeric_limits_epsilon) as [Hs | Hs].
  { rewrite decomposeRTS_degenerate in Hret by assumption. discriminate. }
  rewrite decomposeRTS_similarity in Hret by assumption.
  inversion Hret. repeat split; assumption.
Qed.

(** X3: [decomposeRTS] never reads the last row of its input: the flag
    it returns is decided by the top-left block alone, and on a true
    return the three outputs are decided by the top three rows alone,
    whatever the out-parameters held before. *)
Theorem decomposeRTS_reads_top_rows (RTS RTS' : Mat4) (o o' : SRt) :
  topLeftCorner33 RTS = topLeftCorner33 RTS' →
  fst (decomposeRTS RTS o) = fst (decomposeRTS RTS' o')
  ∧ (topRightCorner31 RTS = topRightCorner31 RTS' →
     fst (decomposeRTS RTS o) = true →
     decomposeRTS RTS o = decomposeRTS RTS' o').
Proof.
  intros Hblock.
  destruct (Rlt_dec (fl_determinant (topLeftCorner33 RTS)) 0) as [Hd | Hd].
  { rewrite (decomposeRTS_negative RTS) by assumption.
    rewrite (decomposeRTS_negative RTS') by (rewrite <- Hblock; assumption).
    split; [reflexivity | discriminate]. }
  destruct (Rlt_dec (fl_pow (fl_determinant (topLeftCorner33 RTS)) (fl_div 1 3))
              std.numeric_limits_epsilon) as [Hs | Hs].
  { rewrite (decomposeRTS_degenerate RTS) by assumption.
    rewrite (decomposeRTS_degenerate RTS') by (rewrite <- Hblock; assumption).
    split; [reflexivity | discriminate]. }
  rewrite (decomposeRTS_similarity RTS) by assumption.
  rewrite (decomposeRTS_similarity RTS') by (rewrite <- Hblock; assumption).
  split; [reflexivity |].
  intros Hcol _. rewrite Hblock, Hcol. reflexivity.
Qed.

(** X5: after a true return of [decomposeRTS] the determinant computed
    for the top-left block is not negative, [S] holds the scale computed
    from it, [pow(det, 1.0 / 3.0)], which is not below the machine
    epsilon, [t] holds the top-right column of the input, and [R] holds
    the top-left block with every coefficient divided by that scale. *)
Theorem decomposeRTS_true_return (RTS : Mat4) (o o' : SRt) :
  decomposeRTS RTS o = (true, o') →
  let det := fl_determinant (topLeftCorner33 RTS) in
  ¬ det < 0
  ∧ out_S o' = fl_pow det (fl_div 1 3)
  ∧ ¬ out_S o' < std.numeric_limits_epsilon
  ∧ out_t o' = topRightCorner31 RTS
  ∧ out_R o' = mdiv_assign (topLeftCorner33 RTS) (out_S o').
Proof.
  intros Hret det. subst det.
  destruct (decomposeRTS_true_inv RTS o o' Hret) as (Hd & Hs & ->). simpl.
  repeat split; assumption.
Qed.

End DecomposeMore.

Section DecomposeRunsMore.
Local Open Scope R_scope.

Lemma exact_decomposeRTS_Identity (RTS : Mat4) (o : SRt) :
  topLeftCorner33 RTS = Mat3_Identity →
  fst (@decomposeRTS exact_arithmetic RTS o) = true.
Proof.
  intros Hblock.
  assert (Hid : determinant Mat3_Identity = 1 * 1 * 1)
    by (unfold determinant; simpl; ring).
  rewrite decomposeRTS_similarity; [reflexivity | |]; exact_ops;
    rewrite Hblock, Hid.
  - lra.
  - rewrite pow_third_cube by lra. pose proof epsilon_le_1. lra.
Qed.

Lemma decomposeRTS_reads_top_rows_witness :
  @decomposeRTS exact_arithmetic Mat4_Identity prior_outputs
  = @decomposeRTS exact_arithmetic (mkMat4 1 0 0 0  0 1 0 0  0 0 1 0  5 6 7 8)
      (mkSRt 0 Vec3_Zero Mat3_Identity).
Proof.
  destruct (@decomposeRTS_reads_top_rows exact_arithmetic Mat4_Identity
              (mkMat4 1 0 0 0  0 1 0 0  0 0 1 0  5 6 7 8)
              prior_outputs (mkSRt 0 Vec3_Zero Mat3_Identity))
    as [_ Hout]; [reflexivity |].
  apply Hout; [reflexivity |].
  apply exact_decomposeRTS_Identity. reflexivity.
Defined.

Lemma two_above_epsilon : std.numeric_limits_epsilon <= 2.
Proof. pose proof epsilon_le_1. lra. Qed.

Lemma decomposeRTS_true_return_witness :
  let RTS := composeRTS 2 (mkVec3 1 2 3) Mat3_Identity Mat4_Zero in
  let o' := mkSRt 2 (mkVec3 1 2 3) Mat3_Identity in
  ¬ @fl_determinant exact_arithmetic (topLeftCorner33 RTS) < 0
  ∧ out_S o' = @fl_pow exact_arithmetic
                 (@fl_determinant exact_arithmetic (topLeftCorner33 RTS))
                 (@fl_div exact_arithmetic 1 3)
  ∧ ¬ out_S o' < std.numeric_limits_epsilon
  ∧ out_t o' = topRightCorner31 RTS
  ∧ out_R o' = @mdiv_assign exact_arithmetic (topLeftCorner33 RTS) (out_S o').
Proof.
  intros RTS o'.
  apply (@decomposeRTS_true_return exact_arithmetic RTS prior_outputs o').
  apply exact_decomposeRTS_composed;
    [apply two_above_epsilon | apply determinant_Identity].
Defined.

End DecomposeRunsMore.

(** ** [FindRTS], [RTSSolver::Solve] and the matrix-form wrapper *)

Section FindRTSMore.
Local Open Scope R_scope.
Context {fl : Binary64}.

Lemma decomposeRTS_false_inv (RTS : Mat4) (o o' : SRt) :
  decomposeRTS RTS o = (false, o') →
  out_t o' = out_t o ∧ out_R o' = topLeftCorner33 RTS.
Proof.
  intros Hret.
  destruct (Rlt_dec (fl_determinant (topLeftCorner33 RTS)) 0) as [Hd | Hd].
  { rewrite decomposeRTS_negative in Hret by assumption.
    inversion Hret. split; reflexivity. }
  destruct (Rlt_dec (fl_pow (fl_determinant (topLeftCorner33 RTS)) (fl_div 1 3))
              std.numeric_limits_epsilon) as [Hs | Hs].
  { rewrite decomposeRTS_degenerate in Hret by assumption.
    inversion Hret. split; reflexivity. }
  rewrite decomposeRTS_similarity in Hret by assumption. discriminate.
Qed.

Lemma FindRTS_valid_shapes (umeyama : Mat → Mat → Mat4) (x1 x2 : Mat) (o : SRt) :
  rows x1 = 3%nat → rows x2 = 3%nat → cols x1 = cols x2 → (3 ≤ cols x1)%nat →
  FindRTS umeyama x1 x2 o = Returned (decomposeRTS (umeyama x1 x2) o).
Proof.
  intros Hr1 Hr2 Hc H3. unfold FindRTS.
  rewrite (bool_decide_eq_false_2 (cols x1 < 3)%nat) by lia.
  rewrite (bool_decide_eq_false_2 (cols x2 < 3)%nat) by lia.
  simpl.
  rewrite (bool_decide_eq_true_2 (3%nat = rows x1)) by congruence.
  rewrite (bool_decide_eq_true_2 (3 ≤ cols x1)%nat) by assumption.
  rewrite (bool_decide_eq_true_2 (rows x1 = rows x2)) by congruence.
  rewrite (bool_decide_eq_true_2 (cols x1 = cols x2)) by assumption.
  reflexivity.
Qed.

(** X8: [FindRTS] ends in a failed assertion exactly when both point
    sets have at least three columns and the shapes are not those of two
    3xN sets of the same N; with a set of fewer than three columns no
    assertion is evaluated, whatever the shapes.  In particular the
    assertion [3 <= x1.cols()] can never fail. *)
Theorem FindRTS_assertion_iff (umeyama : Mat → Mat → Mat4) (x1 x2 : Mat)
    (o : SRt) :
  FindRTS umeyama x1 x2 o = AssertionFailed
  ↔ (3 ≤ cols x1)%nat ∧ (3 ≤ cols x2)%nat
    ∧ ¬ (rows x1 = 3%nat ∧ rows x2 = 3%nat ∧ cols x1 = cols x2).
Proof.
  unfold FindRTS.
  destruct (decide (cols x1 < 3)%nat) as [H1 | H1].
  { rewrite (bool_decide_eq_true_2 _ H1). simpl.
    split; [discriminate | intros (? & _); lia]. }
  destruct (decide (cols x2 < 3)%nat) as [H2 | H2].
  { rewrite (bool_decide_eq_true_2 _ H2), orb_true_r.
    split; [discriminate | intros (_ & ? & _); lia]. }
  rewrite (bool_decide_eq_false_2 _ H1), (bool_decide_eq_false_2 _ H2). simpl.
  repeat case_bool_decide; simpl;
    (split; [intros Hfail; try discriminate; repeat split; try lia;
             intros (? & ? & ?); congruence
            | intros (_ & _ & Hshape); try reflexivity;
              exfalso; apply Hshape; repeat split; congruence]).
Qed.

(** X10: whenever [FindRTS] returns false, [t] holds what it held
    before the call, and [R] holds either what it held before (too few
    points) or the top-left block of the matrix [umeyama] answered. *)
Theorem FindRTS_false_keeps_t (umeyama : Mat → Mat → Mat4) (x1 x2 : Mat)
    (o o' : SRt) :
  FindRTS umeyama x1 x2 o = Returned (false, o') →
  out_t o' = out_t o
  ∧ (out_R o' = out_R o ∨ out_R o' = topLeftCorner33 (umeyama x1 x2)).
Proof.
  unfold FindRTS.
  destruct (bool_decide (cols x1 < 3)%nat || bool_decide (cols x2 < 3)%nat).
  { intros Hret. inversion Hret. split; [reflexivity | left; reflexivity]. }
  repeat case_bool_decide; simpl; try discriminate.
  intros Hret. inversion Hret as [Hdec].
  destruct (decomposeRTS_false_inv _ _ _ Hdec) as [Ht HR].
  split; [exact Ht | right; exact HR].
Qed.

(** X11: [RTSSolver::Solve] appends [MAX_MODELS] models, one, after
    those already there; and on two 3xN point sets with N at least 3 the
    model it appends is the matrix [FindRTS] decomposes. *)
Theorem RTSSolver_Solve_model_of_FindRTS (umeyama : Mat → Mat → Mat4)
    (x1 x2 : Mat) (models : list Mat4) (o : SRt) :
  rows x1 = 3%nat → rows x2 = 3%nat → cols x1 = cols x2 → (3 ≤ cols x1)%nat →
  ∃ model : Mat4,
    RTSSolver.Solve umeyama x1 x2 models = models ++ [model]
    ∧ length (RTSSolver.Solve umeyama x1 x2 models)
      = (length models + RTSSolver.MAX_MODELS)%nat
    ∧ FindRTS umeyama x1 x2 o = Returned (decomposeRTS model o).
Proof.
  intros Hr1 Hr2 Hc H3. exists (umeyama x1 x2).
  split; [reflexivity |]. split.
  - unfold RTSSolver.Solve. rewrite length_app. reflexivity.
  - apply FindRTS_valid_shapes; assumption.
Qed.

End FindRTSMore.

Section FindRTSRunsMore.
Local Open Scope R_scope.

(** Three correspondences and a reflection from [umeyama]: the call
    reaches [decomposeRTS], which fails on the negative determinant
    after it has overwritten [R]. *)
Lemma FindRTS_false_keeps_t_witness :
  let o' := set_R prior_outputs (topLeftCorner33 Mat4_mirror) in
  @FindRTS exact_arithmetic sample_umeyama_mirror
    (points_on_axis 3) (points_on_axis_shifted 3) prior_outputs
  = Returned (false, o')
  ∧ out_t o' = out_t prior_outputs
  ∧ (out_R o' = out_R prior_outputs
     ∨ out_R o'
       = topLeftCorner33
           (sample_umeyama_mirror (points_on_axis 3) (points_on_axis_shifted 3)))
  ∧ out_R o' ≠ out_R prior_outputs.
Proof.
  intros o'.
  assert (Hret : @FindRTS exact_arithmetic sample_umeyama_mirror
                   (points_on_axis 3) (points_on_axis_shifted 3) prior_outputs
                 = Returned (false, o')).
  { rewrite FindRTS_valid_shapes;
      [| reflexivity | reflexivity | reflexivity | simpl; lia].
    unfold sample_umeyama_mirror. rewrite exact_decomposeRTS_mirror. reflexivity. }
  destruct (@FindRTS_false_keeps_t exact_arithmetic sample_umeyama_mirror
              (points_on_axis 3) (points_on_axis_shifted 3)
              prior_outputs o' Hret) as [Ht HR].
  split; [exact Hret |]. split; [exact Ht |]. split; [exact HR |].
  simpl. intros Heq. inversion Heq. lra.
Defined.

Lemma RTSSolver_Solve_model_of_FindRTS_witness :
  ∃ model : Mat4,
    RTSSolver.Solve sample_umeyama (points_on_axis 3) (points_on_axis_shifted 3)
      [Mat4_Identity] = [Mat4_Identity] ++ [model]
    ∧ length (RTSSolver.Solve sample_umeyama (points_on_axis 3)
                (points_on_axis_shifted 3) [Mat4_Identity])
      = (length [Mat4_Identity] + RTSSolver.MAX_MODELS)%nat
    ∧ @FindRTS exact_arithmetic sample_umeyama
        (points_on_axis 3) (points_on_axis_shifted 3) prior_outputs
      = Returned (@decomposeRTS exact_arithmetic model prior_outputs).
Proof.
  apply (@RTSSolver_Solve_model_of_FindRTS exact_arithmetic sample_umeyama
           (points_on_axis 3) (points_on_axis_shifted 3)
           [Mat4_Identity] prior_outputs);
    [reflexivity | reflexivity | reflexivity | simpl; lia].
Defined.

End FindRTSRunsMore.

Section WrapperMore.
Local Open Scope R_scope.

Variable ACRansac_FindRTS_SRt :
  Mat → Mat → SRt → list nat → bool → bool * SRt * list nat.
Variable uninitialized_SRt : SRt.

Local Abbreviation inner x1 x2 vec_inliers refine :=
  (ACRansac_FindRTS_SRt x1 x2 uninitialized_SRt vec_inliers refine).
Local Abbreviation wrapper :=
  (ACRansac_FindRTS ACRansac_FindRTS_SRt uninitialized_SRt).

(** X12: the matrix-form [ACRansac_FindRTS] returns the flag and the
    inliers of the overload it calls; it never writes the last row of
    [RTS]; when the flag is false [RTS] is left as it was; and when the
    flag is true the top-left block of [RTS] holds S·R and its top-right
    column holds t, for the S, R and t the overload found. *)
Theorem ACRansac_FindRTS_matrix_form (x1 x2 : Mat) (RTS : Mat4)
    (vec_inliers : list nat) (refine : bool) :
  let found := inner x1 x2 vec_inliers refine in
  let result := wrapper x1 x2 RTS vec_inliers refine in
  result.1.1 = found.1.1
  ∧ result.2 = found.2
  ∧ bottomRow result.1.2 = bottomRow RTS
  ∧ (result.1.1 = false → result.1.2 = RTS)
  ∧ (result.1.1 = true →
     topLeftCorner33 result.1.2 = mscale (out_S found.1.2) (out_R found.1.2)
     ∧ topRightCorner31 result.1.2 = out_t found.1.2).
Proof.
  intros found result. subst found result. unfold ACRansac_FindRTS.
  destruct (inner x1 x2 vec_inliers refine) as [[good o] inliers]. simpl.
  split; [reflexivity |]. split; [reflexivity |].
  destruct good; simpl.
  - split; [apply bottomRow_composeRTS |].
    split; [discriminate |].
    intros _. split;
      [apply topLeftCorner33_composeRTS | apply topRightCorner31_composeRTS].
  - split; [reflexivity |]. split; [reflexivity | discriminate].
Qed.

End WrapperMore.

Section WrapperRuns.
Local Open Scope R_scope.

Lemma ACRansac_FindRTS_matrix_form_witness :
  (ACRansac_FindRTS sample_ACRansac prior_outputs
     (points_on_axis 3) (points_on_axis_shifted 3) Mat4_Zero [] false).1.2
  = mkMat4 (2 * 1) (2 * 0) (2 * 0) 1
           (2 * 0) (2 * 1) (2 * 0) 2
           (2 * 0) (2 * 0) (2 * 1) 3
           0 0 0 0
  ∧ (ACRansac_FindRTS sample_ACRansac_failing prior_outputs
       (points_on_axis 3) (points_on_axis_shifted 3) Mat4_Zero [] false).1.2
    = Mat4_Zero.
Proof.
  split.
  - destruct (ACRansac_FindRTS_matrix_form sample_ACRansac prior_outputs
                (points_on_axis 3) (points_on_axis_shifted 3) Mat4_Zero [] false)
      as (_ & _ & Hrow & _ & Hgood).
    destruct Hgood as [Hblock Hcol]; [reflexivity |].
    apply Mat4_by_parts; [exact Hblock | exact Hcol | exact Hrow].
  - destruct (ACRansac_FindRTS_matrix_form sample_ACRansac_failing prior_outputs
                (points_on_axis 3) (points_on_axis_shifted 3) Mat4_Zero [] false)
      as (_ & _ & _ & Hbad & _).
    apply Hbad. reflexivity.
Defined.

End WrapperRuns.

(** ** The error metrics and the scoring members of the kernel adaptor *)

Section MetricsMore.
Local Open Scope R_scope.
Import ACKernelAdaptor_PointsRegistrationSRT.








(** X17: the constructor of the adaptor returns an adaptor, holding the
    two point sets as they are, exactly when both have three rows and
    they have the same number of columns; otherwise an assertion fails.
    An adaptor so built counts the columns of either set as its
    samples. *)
Theorem adaptor_make_iff (xA xB : Mat) :
  (make xA xB = Returned (mk xA xB)
   ↔ rows xA = 3%nat ∧ rows xB = 3%nat ∧ cols xA = cols xB)
  ∧ (make xA xB = AssertionFailed
     ↔ ¬ (rows xA = 3%nat ∧ rows xB = 3%nat ∧ cols xA = cols xB))
  ∧ ∀ k, make xA xB = Returned k →
      k = mk xA xB ∧ NumSamples k = cols xA ∧ NumSamples k = cols xB.
Proof.
  unfold make, NumSamples; simpl.
  repeat case_bool_decide; simpl;
    (split; [| split];
     [ split; [intros H'; try discriminate; repeat split; congruence
              | intros (? & ? & ?); try reflexivity; congruence]
     | split; [intros H'; try discriminate; intros (? & ? & ?); congruence
              | intros Hn; try reflexivity; exfalso; apply Hn;
                repeat split; congruence]
     | intros k Hk; try discriminate; inversion Hk; subst; simpl;
       repeat split; congruence ]).
Qed.

End MetricsMore.

(** ** The fundamental-matrix solvers *)

Section SolversMore.
Local Open Scope R_scope.

Variable EncodeEpipolarEquation : Mat → Mat → option (list R) → Mat → Mat.
Variable Nullspace : Mat → Vec9.
Variable Nullspace2 : Mat → Vec9 * Vec9.
Variable SolveCubicPolynomial : Vec4 → Vec3 → Z * Vec3.
Variable JacobiSVD : Mat3 → JacobiSVD_result.
Variable uninitialized_A : nat → nat → R.
Variable uninitialized_roots : Vec3.

Local Abbreviation basis :=
  (seven_point_basis EncodeEpipolarEquation Nullspace2 uninitialized_A).
Local Abbreviation Solve7 :=
  (SevenPointSolver_Solve EncodeEpipolarEquation Nullspace2
     SolveCubicPolynomial uninitialized_A uninitialized_roots).
Local Abbreviation nullspace8 :=
  (eight_point_nullspace EncodeEpipolarEquation Nullspace uninitialized_A).
Local Abbreviation Solve8 :=
  (EightPointSolver_Solve EncodeEpipolarEquation Nullspace JacobiSVD uninitialized_A).

Lemma push_candidates_no_assertion (F1 F2 : Mat3) (roots : Vec3)
    (kks : list nat) (F : list Mat3) :
  push_candidates F1 F2 roots kks F ≠ AssertionFailed.
Proof.
  revert F. induction kks as [| kk kks IH]; intros F; simpl.
  - discriminate.
  - destruct (roots_at roots kk); [apply IH | discriminate].
Qed.


(** X19: the seven-point solver ends in a failed assertion exactly when
    its inputs are not two 2xN point sets of the same N at least 7. *)
Theorem SevenPointSolver_assertion_iff (x1 x2 : Mat) (F : list Mat3) :
  Solve7 x1 x2 F = AssertionFailed
  ↔ ¬ (rows x1 = 2%nat ∧ (7 ≤ cols x1)%nat ∧ rows x2 = 2%nat ∧ cols x2 = cols x1).
Proof.
  split.
  - intros Hfail (Hr & Hc & Hr2 & Hc2).
    rewrite SevenPointSolver_Solve_unfold in Hfail by assumption.
    cbv zeta in Hfail. exact (push_candidates_no_assertion _ _ _ _ _ Hfail).
  - intros Hshape. unfold SevenPointSolver_Solve.
    repeat case_bool_decide; simpl; try reflexivity.
    exfalso. apply Hshape. repeat split; congruence.
Qed.

(** X20: on two 2xN point sets with N at least 7, a reported count of
    zero or less appends nothing, and a reported count above 3 makes the
    loop read [roots] past its three elements. *)
Theorem SevenPointSolver_count_out_of_range (x1 x2 : Mat) (F : list Mat3) :
  rows x1 = 2%nat → (7 ≤ cols x1)%nat → rows x2 = 2%nat → cols x2 = cols x1 →
  let P := cubic_coeffs (basis x1 x2).1 (basis x1 x2).2 in
  let num_roots := (SolveCubicPolynomial P uninitialized_roots).1 in
  ((num_roots ≤ 0)%Z → Solve7 x1 x2 F = Returned F)
  ∧ ((3 < num_roots)%Z → Solve7 x1 x2 F = OutOfBounds).
Proof.
  intros Hr Hc Hr2 Hc2 P num_roots.
  rewrite SevenPointSolver_Solve_unfold by assumption. cbv zeta.
  fold P num_roots. split.
  - intros Hn. replace (Z.to_nat num_roots) with 0%nat by lia. reflexivity.
  - intros Hn. apply push_candidates_past_end. lia.
Qed.

Lemma force_rank2_fixpoint (F : Mat3) :
  F = mmul (mmul (matrixU (JacobiSVD F)) (asDiagonal (singularValues (JacobiSVD F))))
        (transpose (matrixV (JacobiSVD F))) →
  v3_2 (singularValues (JacobiSVD F)) = 0 →
  force_rank2 JacobiSVD F = F.
Proof.
  intros Hsvd Hd2. unfold force_rank2.
  destruct (JacobiSVD F) as [U [d0 d1 d2] V]. simpl in *.
  subst d2. symmetry. exact Hsvd.
Qed.

(** X22: on two 2xN point sets with N above 8, when the decomposition
    routine answers factors that do multiply back to the null-space
    matrix and a last singular value that is 0, the solver appends the
    null-space matrix unchanged. *)
Theorem EightPointSolver_keeps_rank2 (x1 x2 : Mat) (Fs : list Mat3)
    (weights : option (list R)) :
  rows x1 = 2%nat → (8 < cols x1)%nat → rows x2 = 2%nat → cols x2 = cols x1 →
  let F0 := nullspace8 x1 x2 weights in
  F0 = mmul (mmul (matrixU (JacobiSVD F0)) (asDiagonal (singularValues (JacobiSVD F0))))
         (transpose (matrixV (JacobiSVD F0))) →
  v3_2 (singularValues (JacobiSVD F0)) = 0 →
  Solve8 x1 x2 Fs weights = Returned (Fs ++ [F0]).
Proof.
  intros Hr Hc Hr2 Hc2 F0 Hsvd Hd2.
  rewrite EightPointSolver_Solve_unfold by (assumption || lia).
  rewrite (bool_decide_eq_true_2 (8 < cols x1)%nat) by assumption.
  fold F0. rewrite force_rank2_fixpoint by assumption. reflexivity.
Qed.

(** X23: the eight-point solver ends in a failed assertion exactly when
    its inputs are not two 2xN point sets of the same N at least 8, and
    it never reads out of bounds. *)
Theorem EightPointSolver_assertion_iff (x1 x2 : Mat) (Fs : list Mat3)
    (weights : option (list R)) :
  (Solve8 x1 x2 Fs weights = AssertionFailed
   ↔ ¬ (rows x1 = 2%nat ∧ (8 ≤ cols x1)%nat ∧ rows x2 = 2%nat ∧ cols x2 = cols x1))
  ∧ Solve8 x1 x2 Fs weights ≠ OutOfBounds.
Proof.
  unfold EightPointSolver_Solve.
  repeat case_bool_decide; simpl;
    (split; [split; [intros Hf; try discriminate; intros (? & ? & ? & ?); congruence
                    | intros Hn; try reflexivity; exfalso; apply Hn;
                      repeat split; congruence]
            | discriminate]).
Qed.

End SolversMore.

Section SolverRunsMore.
Local Open Scope R_scope.


Lemma SevenPointSolver_count_out_of_range_witness :
  SevenPointSolver_Solve sample_Encode sample_Nullspace2 sample_no_root
    (λ _ _, 0) Vec3_Zero (image_points 7) (image_points' 7) [Mat3_Identity]
  = Returned [Mat3_Identity]
  ∧ SevenPointSolver_Solve sample_Encode sample_Nullspace2 sample_too_many_roots
      (λ _ _, 0) Vec3_Zero (image_points 7) (image_points' 7) [Mat3_Identity]
    = OutOfBounds.
Proof.
  split.
  - apply (SevenPointSolver_count_out_of_range
             sample_Encode sample_Nullspace2 sample_no_root
             (λ _ _, 0) Vec3_Zero (image_points 7) (image_points' 7)
             [Mat3_Identity]);
      [reflexivity | simpl; lia | reflexivity | reflexivity | simpl; lia].
  - apply (SevenPointSolver_count_out_of_range
             sample_Encode sample_Nullspace2 sample_too_many_roots
             (λ _ _, 0) Vec3_Zero (image_points 7) (image_points' 7)
             [Mat3_Identity]);
      [reflexivity | simpl; lia | reflexivity | reflexivity | simpl; lia].
Defined.

Lemma EightPointSolver_keeps_rank2_witness :
  EightPointSolver_Solve sample_Encode sample_Nullspace_rank2 sample_SVD (λ _ _, 0)
    (image_points 9) (image_points' 9) [] None
  = Returned [mkMat3 1 0 0  0 2 0  0 0 0].
Proof.
  apply (EightPointSolver_keeps_rank2
           sample_Encode sample_Nullspace_rank2 sample_SVD (λ _ _, 0)
           (image_points 9) (image_points' 9) [] None).
  - reflexivity.
  - simpl. lia.
  - reflexivity.
  - reflexivity.
  - change (eight_point_nullspace sample_Encode sample_Nullspace_rank2 (λ _ _, 0)
              (image_points 9) (image_points' 9) None)
      with (mkMat3 1 0 0  0 2 0  0 0 0).
    unfold mmul, asDiagonal, transpose, sample_SVD, Mat3_Identity; simpl.
    f_equal; ring.
  - reflexivity.
Defined.

End SolverRunsMore.

(** ** The tests of the sampling primitive *)

Import randSampling_test.

Section TestsMore.

Lemma BOOST_CHECK_le (c : bool) (failed : nat) : failed ≤ BOOST_CHECK c failed.
Proof. destruct c; simpl; lia. Qed.

Lemma BOOST_CHECK_same (c : bool) (failed : nat) :
  BOOST_CHECK c failed = failed ↔ c = true.
Proof.
  destruct c; simpl; split; intros Hc;
    first [reflexivity | lia | discriminate].
Qed.

Lemma check_each_cons (lower upper s : nat) (samples : list nat)
    (myset : gset nat) (failed : nat) :
  check_each lower upper (s :: samples) (myset, failed)
  = check_each lower upper samples
      ({[s]} ∪ myset,
       BOOST_CHECK (bool_decide (s < upper))
         (BOOST_CHECK (bool_decide (lower ≤ s)) failed)).
Proof. reflexivity. Qed.

(** The range-for over the samples: [myset] ends as the set of the
    samples, and no check fails exactly when every sample is within the
    bounds. *)
Lemma check_each_spec (lower upper : nat) (samples : list nat)
    (myset : gset nat) (failed : nat) :
  (check_each lower upper samples (myset, failed)).1
  = list_to_set samples ∪ myset
  ∧ failed ≤ (check_each lower upper samples (myset, failed)).2
  ∧ ((check_each lower upper samples (myset, failed)).2 = failed
     ↔ Forall (λ s, lower ≤ s < upper) samples).
Proof.
  revert myset failed.
  induction samples as [| s samples IH]; intros myset failed.
  - simpl. split; [set_solver |]. split; [lia |]. split; [constructor | done].
  - rewrite check_each_cons.
    set (f1 := BOOST_CHECK (bool_decide (s < upper))
                 (BOOST_CHECK (bool_decide (lower ≤ s)) failed)).
    destruct (IH ({[s]} ∪ myset) f1) as (Hset & Hle & Hiff).
    assert (Hf1 : failed ≤ f1).
    { unfold f1. etrans; [| apply BOOST_CHECK_le]. apply BOOST_CHECK_le. }
    assert (Hf1' : f1 = failed ↔ lower ≤ s < upper).
    { unfold f1. split.
      - intros Heq.
        pose proof (BOOST_CHECK_le (bool_decide (lower ≤ s)) failed) as H1.
        pose proof (BOOST_CHECK_le (bool_decide (s < upper))
                      (BOOST_CHECK (bool_decide (lower ≤ s)) failed)) as H2.
        assert (Ha : BOOST_CHECK (bool_decide (lower ≤ s)) failed = failed) by lia.
        rewrite Ha in Heq.
        apply BOOST_CHECK_same, bool_decide_eq_true in Ha.
        apply BOOST_CHECK_same, bool_decide_eq_true in Heq. lia.
      - intros [Hlo Hhi].
        rewrite (bool_decide_eq_true_2 _ Hlo), (bool_decide_eq_true_2 _ Hhi).
        reflexivity. }
    split; [rewrite Hset; set_solver |]. split; [lia |].
    rewrite Forall_cons. split.
    + intros Heq. assert (f1 = failed) by lia.
      split; [apply Hf1'; assumption | apply Hiff; lia].
    + intros [Hs Hrest]. apply Hf1' in Hs. apply Hiff in Hrest. lia.
Qed.

Lemma size_list_to_set_le (l : list nat) :
  size (list_to_set l : gset nat) ≤ length l.
Proof.
  induction l as [| x l IH].
  - reflexivity.
  - rewrite list_to_set_cons. simpl.
    rewrite size_union_alt, size_singleton.
    assert (Hsub : size ((list_to_set l : gset nat) ∖ {[x]})
                   ≤ size (list_to_set l : gset nat))
      by (apply subseteq_size, subseteq_difference_l; reflexivity).
    lia.
Qed.

Lemma size_list_to_set_NoDup (l : list nat) :
  size (list_to_set l : gset nat) = length l ↔ NoDup l.
Proof.
  split; [| apply size_list_to_set].
  induction l as [| x l IH]; simpl; intros Hsize; [constructor |].
  pose proof (size_list_to_set_le l) as Hle.
  destruct (decide (x ∈ l)) as [Hin | Hnotin].
  - exfalso.
    assert (Heq : {[x]} ∪ list_to_set l = (list_to_set l : gset nat))
      by set_solver.
    rewrite Heq in Hsize. lia.
  - rewrite size_union, size_singleton in Hsize by set_solver.
    constructor; [assumption | apply IH; lia].
Qed.

(** X24: what the checks of one round of the two tests establish: none
    of them fails exactly when every sample is within the bounds and the
    number of distinct samples is [numSamples].  The length of
    [samples] is not checked: when no check fails, the samples are free
    of repetitions exactly when there are [numSamples] of them. *)
Theorem test_round_checks (lower upper numSamples : nat) (samples : list nat)
    (failed : nat) :
  let checked := check_each lower upper samples (∅, failed) in
  let failed' :=
    BOOST_CHECK (bool_decide (numSamples = size checked.1)) checked.2 in
  (failed' = failed
   ↔ Forall (λ s, lower ≤ s < upper) samples
     ∧ size (list_to_set samples : gset nat) = numSamples)
  ∧ (failed' = failed → (NoDup samples ↔ length samples = numSamples)).
Proof.
  intros checked failed'. subst checked failed'.
  destruct (check_each_spec lower upper samples ∅ failed) as (Hset & Hle & Hiff).
  rewrite Hset, (right_id_L ∅ (∪)).
  assert (Hmain :
    BOOST_CHECK (bool_decide (numSamples = size (list_to_set samples : gset nat)))
      (check_each lower upper samples (∅, failed)).2 = failed
    ↔ Forall (λ s, lower ≤ s < upper) samples
      ∧ size (list_to_set samples : gset nat) = numSamples).
  { split.
    - intros Heq.
      pose proof (BOOST_CHECK_le
                    (bool_decide (numSamples = size (list_to_set samples : gset nat)))
                    (check_each lower upper samples (∅, failed)).2) as H1.
      assert (Ha : (check_each lower upper samples (∅, failed)).2 = failed) by lia.
      rewrite Ha in Heq.
      apply BOOST_CHECK_same, bool_decide_eq_true in Heq.
      split; [apply Hiff, Ha | congruence].
    - intros [Hall Hsize]. apply Hiff in Hall. rewrite Hall.
      apply BOOST_CHECK_same, bool_decide_eq_true. congruence. }
  split; [exact Hmain |].
  intros Hpass. apply Hmain in Hpass as [_ Hsize].
  rewrite <- size_list_to_set_NoDup. split; congruence.
Qed.

Lemma for_doubling_S {St : Type} (fuel x : nat) (cond : nat → bool)
    (body : nat → St → option (outcome St)) (st : St) :
  for_doubling (S fuel) x cond body st
  = if cond x then
      match body x st with
      | Some (Returned st) => for_doubling fuel (x * 2) cond body st
      | other => other
      end
    else Some (Returned st).
Proof. reflexivity. Qed.

(** A doubling loop whose condition bounds the counter, and whose body
    returns and keeps an invariant, returns and keeps it when it is
    given rounds enough. *)
Lemma for_doubling_returns {St : Type} (Inv : St → Prop) (cond : nat → bool)
    (body : nat → St → option (outcome St)) (bound : nat) :
  (∀ x, cond x = true → x ≤ bound) →
  (∀ x st, 1 ≤ x → cond x = true → Inv st →
     ∃ st', body x st = Some (Returned st') ∧ Inv st') →
  ∀ fuel x st, 1 ≤ x → bound < x * 2 ^ fuel → Inv st →
    ∃ st', for_doubling (S fuel) x cond body st = Some (Returned st') ∧ Inv st'.
Proof.
  intros Hbound Hbody fuel.
  induction fuel as [| fuel IH]; intros x st Hx Hlt HI;
    rewrite for_doubling_S; destruct (cond x) eqn:Hc; eauto.
  - apply Hbound in Hc. simpl in Hlt. lia.
  - destruct (Hbody x st Hx Hc HI) as (st' & -> & HI').
    apply IH; [lia | | assumption].
    rewrite Nat.pow_succ_r' in Hlt. lia.
Qed.

Lemma enough_rounds (fuel : nat) : 10 ≤ fuel → 1024 ≤ 2 ^ fuel.
Proof.
  intros Hf. change 1024 with (2 ^ 10).
  apply Nat.pow_le_mono_r; lia.
Qed.

(** A round of either test on samples that meet the contract counts no
    failed check. *)
Lemma round_passes (lower upper numSamples : nat) (samples : list nat)
    (failed : nat) :
  length samples = numSamples →
  (∀ e, e ∈ samples → lower ≤ e < upper) →
  NoDup samples →
  BOOST_CHECK
    (bool_decide (numSamples = size (check_each lower upper samples (∅, failed)).1))
    (check_each lower upper samples (∅, failed)).2
  = failed.
Proof.
  intros Hlen Hrange Hnodup.
  destruct (check_each_spec lower upper samples ∅ failed) as (Hset & _ & Hiff).
  rewrite Hset, (right_id_L ∅ (∪)), size_list_to_set by assumption.
  rewrite (bool_decide_eq_true_2 _ (eq_sym Hlen)). simpl.
  apply Hiff, Forall_forall, Hrange.
Qed.

Context {Gen : Type}.

(** X25: given rounds enough for its two loops (11 or more), and run on
    a sampler that meets the contract over [0, hi), the test
    [UniformSampleTest_NoRepetions] runs to its end from every state of
    the random-number source, and none of its checks fails. *)
Theorem UniformSampleTest_NoRepetions_passes
    (sampler : nat → nat → Gen → outcome (list nat * Gen))
    (fuel : nat) (g : Gen) :
  sampler_contract_upTo sampler →
  11 ≤ fuel →
  ∃ g', UniformSampleTest_NoRepetions sampler fuel g = Some (Returned (g', 0)).
Proof.
  intros Hcontract Hfuel.
  destruct fuel as [| fuel]; [lia |].
  pose proof (enough_rounds fuel ltac:(lia)) as Hpow.
  unfold UniformSampleTest_NoRepetions.
  destruct (for_doubling_returns (λ st : Gen * nat, st.2 = 0)
              (λ upperBound, bool_decide (upperBound < 513))
              (λ upperBound st,
                 for_doubling (S fuel) 1
                   (λ numSamples, bool_decide (numSamples ≤ upperBound))
                   (NoRepetions_body sampler upperBound) st)
              512) with (fuel := fuel) (x := 1) (st := (g, 0))
    as ([g' failed] & Hrun & Hinv); try (simpl; lia).
  - intros x Hx. apply bool_decide_eq_true in Hx. lia.
  - intros upperBound st _ Hub Hst. apply bool_decide_eq_true in Hub.
    apply (for_doubling_returns (λ st : Gen * nat, st.2 = 0)) with (bound := upperBound);
      try assumption; try lia.
    + intros x Hx. apply bool_decide_eq_true in Hx. lia.
    + intros numSamples [g0 failed0] _ Hk Hinv. simpl in Hinv. subst failed0.
      apply bool_decide_eq_true in Hk.
      destruct (Hcontract upperBound numSamples g0 Hk)
        as (samples & g1 & Hret & Hlen & Hrange & Hnodup).
      exists (g1, 0). split; [| reflexivity].
      unfold NoRepetions_body. simpl. rewrite Hret. simpl.
      rewrite round_passes; [reflexivity | assumption | | assumption].
      intros e He. split; [lia | apply Hrange, He].
  - simpl in Hinv. subst failed. exists g'. exact Hrun.
Qed.

(** X26: given rounds enough, and run on a sampler that meets the
    contract over [lo, hi), the test
    [UniformSampleTest_NoRepetionsBeginEnd] runs to its end from every
    state of the random-number source: its assertion holds in every
    round and none of its checks fails. *)
Theorem UniformSampleTest_NoRepetionsBeginEnd_passes
    (sampler : nat → nat → nat → Gen → outcome (list nat * Gen))
    (fuel : nat) (g : Gen) :
  sampler_contract sampler →
  11 ≤ fuel →
  ∃ g', UniformSampleTest_NoRepetionsBeginEnd sampler fuel g
        = Some (Returned (g', 0)).
Proof.
  intros Hcontract Hfuel.
  destruct fuel as [| fuel]; [lia |].
  pose proof (enough_rounds fuel ltac:(lia)) as Hpow.
  unfold UniformSampleTest_NoRepetionsBeginEnd.
  destruct (for_doubling_returns (λ st : Gen * nat, st.2 = 0)
              (λ upperBound, bool_decide (upperBound < 513))
              (λ upperBound st,
                 for_doubling (S fuel) 1
                   (λ numSamples, bool_decide (numSamples ≤ upperBound))
                   (NoRepetionsBeginEnd_body sampler upperBound) st)
              512) with (fuel := fuel) (x := 1) (st := (g, 0))
    as ([g' failed] & Hrun & Hinv); try (simpl; lia).
  - intros x Hx. apply bool_decide_eq_true in Hx. lia.
  - intros upperBound st _ Hub Hst. apply bool_decide_eq_true in Hub.
    apply (for_doubling_returns (λ st : Gen * nat, st.2 = 0)) with (bound := upperBound);
      try assumption; try lia.
    + intros x Hx. apply bool_decide_eq_true in Hx. lia.
    + intros numSamples [g0 failed0] _ Hk Hinv. simpl in Hinv. subst failed0.
      pose proof Hk as Hk'. apply bool_decide_eq_true in Hk'.
      destruct (Hcontract (upperBound - numSamples) upperBound numSamples g0)
        as (samples & g1 & Hret & Hlen & Hrange & Hnodup); [lia |].
      exists (g1, 0). split; [| reflexivity].
      unfold NoRepetionsBeginEnd_body. simpl. rewrite Hk. simpl.
      rewrite Hret. simpl.
      rewrite round_passes; [reflexivity | assumption | assumption | assumption].
  - simpl in Hinv. subst failed. exists g'. exact Hrun.
Qed.

End TestsMore.

Section TestRuns.

Lemma UniformSample_meets_contract {Gen : Type} (next : Gen → nat * Gen) :
  sampler_contract (UniformSample next).
Proof. intros lo hi k g Hk. apply UniformSample_properties, Hk. Qed.

Lemma UniformSample0_meets_contract {Gen : Type} (next : Gen → nat * Gen) :
  sampler_contract_upTo (UniformSample0 next).
Proof.
  intros hi k g Hk. unfold UniformSample0.
  destruct (UniformSample_properties next 0 hi k g)
    as (samples & g' & Hret & Hlen & Hrange & Hnodup); [lia |].
  exists samples, g'. repeat split; try assumption.
  apply Hrange; assumption.
Qed.

Lemma UniformSampleTest_NoRepetions_passes_witness :
  ∃ g', UniformSampleTest_NoRepetions (UniformSample0 lcg_next) 11 42%N
        = Some (Returned (g', 0)).
Proof.
  apply (UniformSampleTest_NoRepetions_passes (UniformSample0 lcg_next) 11 42%N).
  - apply UniformSample0_meets_contract.
  - lia.
Defined.

Lemma UniformSampleTest_NoRepetionsBeginEnd_passes_witness :
  ∃ g', UniformSampleTest_NoRepetionsBeginEnd (UniformSample lcg_next) 11 42%N
        = Some (Returned (g', 0)).
Proof.
  apply (UniformSampleTest_NoRepetionsBeginEnd_passes (UniformSample lcg_next) 11 42%N).
  - apply UniformSample_meets_contract.
  - lia.
Defined.

End TestRuns.
